(** * P2P-Video-Analyzer: the signaling and session core of [App]

    A shallow embedding of the React component [App] (WebRTC negotiation over
    a [BroadcastChannel], connection lifecycle, frame analysis trigger) and of
    the properties its specification states about it.

    How the component is read:

    - The [useState] cells and the [useRef] cells are fields of one [State]
      record, together with the browser objects the component owns (peer
      connections, media tracks, broadcast channels) and the promises it is
      waiting for.
    - A function of the component is a computation in the monad [Js]: it
      threads the [State] and may complete normally or by an exception.  A
      mutation done before an exception stays done, as in JavaScript.
    - A closure sees the React state of the render that created it.  The
      captured values are explicit parameters ([role_], [isAnalyzing_]); the
      fields [role], [isAnalyzing] of [State] hold the latest value set.
    - One [Event] is one turn of the browser: a click, the settlement of a
      promise, a message on the channel, a callback of the transport.  After
      the handler React re-renders and, when [role] changed, re-runs the
      effect that owns the channel ([commit]).
    - What the browser answers to a request (the stream of [getUserMedia],
      whether the transport accepts a description or a candidate, the frames
      of the canvas, the result of the analysis service) is carried by the
      event.  The promise chains of the transport inside one handler are run
      in one turn; the handlers are suspended only where the user or the
      network decides when they go on: at [getUserMedia], at the timer of
      the sampling loop and at the call of the analysis service.
    - A message is delivered to the [onmessage] of the channel in use, and a
      closed connection fires no callback.
    - [postMessage] sends a structured clone of its message.  The session
      descriptions the component posts are plain dictionaries, which are
      cloned; an [RTCIceCandidate] is a platform object that is not
      serializable, so posting one throws. *)

From stdpp Require Import base decidable option list strings.
From Stdlib Require Import Lia.

Set Default Proof Using "Type".

(** ** Data model (types.ts) *)

Inductive AppRole := HOST | PEER | IDLE.

#[global] Instance AppRole_eq_dec : EqDecision AppRole.
Proof. solve_decision. Defined.

(** The string value of the enum member. *)
Definition AppRole_value (r : AppRole) : string :=
  match r with HOST => "HOST" | PEER => "PEER" | IDLE => "IDLE" end.

Inductive ThreatLevel := Low | Medium | High.

Record AnalysisResult := {
  timestamp : nat;
  summary : string;
  objects : list string;
  threatLevel : ThreatLevel;
  detailedLog : string
}.

(** [SignalingMessage.type] *)
Inductive SignalType := offer | answer | candidate.

#[global] Instance SignalType_eq_dec : EqDecision SignalType.
Proof. solve_decision. Defined.

(** [payload: any]: a session description or a candidate, opaque here. *)
Definition Payload := nat.

Record SignalingMessage := {
  type : SignalType;
  payload : Payload;
  senderId : string
}.

(** ** Browser objects *)

(** [RTCPeerConnection.connectionState] *)
Inductive RTCPeerConnectionState :=
  | cs_new | cs_connecting | cs_connected | cs_disconnected | cs_failed | cs_closed.

(** A peer connection made by [createPeerConnection]: what the component has
    done to it.  [candidate_sender] is the [role] captured by its
    [onicecandidate] closure. *)
Record RTCPeerConnection := {
  candidate_sender : AppRole;
  senders : list nat;
  localDescription : option Payload;
  remoteDescription : option Payload;
  iceCandidates : list Payload;
  isClosed : bool
}.

(** A channel made by the effect; [onmessage_role] is the [role] captured by
    its [onmessage] closure. *)
Record BroadcastChannel := {
  channelId : nat;
  onmessage_role : AppRole
}.

(** What the video element shows. *)
Inductive MediaSource := LocalMedia (tracks : list nat) | RemoteMedia (pc : nat).

(** An invocation of [runAnalysis] that is suspended at an [await]: in the
    sampling loop with the frames taken so far, or in the call of
    [analyzeVideoFrames]. *)
Inductive AnalysisTask :=
  | Sampling (frames : list string)
  | InService (frames : list string).

(** What the transport answers to the requests of one message handler. *)
Record TransportReply := {
  setRemoteDescription_ok : bool;
  createAnswer_result : option Payload;
  setLocalDescription_ok : bool;
  addIceCandidate_ok : bool
}.

(** ** The state of the component *)

Record State := {
  (* useState *)
  role : AppRole;
  isLive : bool;
  isAnalyzing : bool;
  history : list AnalysisResult;
  error : option string;
  (* useRef: [true] when [.current] holds the video element *)
  localVideoRef : bool;
  remoteVideoRef : bool;
  (* useRef: identities of browser objects *)
  peerConnection : option nat;
  localStream : option (list nat);
  bc : option BroadcastChannel;
  (* browser objects *)
  srcObject : option MediaSource;
  connections : list RTCPeerConnection;
  stoppedTracks : list nat;
  trackCount : nat;
  closedChannels : list nat;
  channelCount : nat;
  posted : list (nat * SignalingMessage);
  console : list string;
  (* promises not yet settled *)
  pendingUserMedia : list AppRole;
  pendingAnalyses : list AnalysisTask
}.

Definition set_role (v : AppRole) (s : State) : State :=
  {| role := v; isLive := isLive s; isAnalyzing := isAnalyzing s;
     history := history s; error := error s;
     localVideoRef := localVideoRef s; remoteVideoRef := remoteVideoRef s;
     peerConnection := peerConnection s; localStream := localStream s; bc := bc s;
     srcObject := srcObject s; connections := connections s;
     stoppedTracks := stoppedTracks s; trackCount := trackCount s;
     closedChannels := closedChannels s; channelCount := channelCount s;
     posted := posted s; console := console s;
     pendingUserMedia := pendingUserMedia s; pendingAnalyses := pendingAnalyses s |}.

Definition set_isLive (v : bool) (s : State) : State :=
  {| role := role s; isLive := v; isAnalyzing := isAnalyzing s;
     history := history s; error := error s;
     localVideoRef := localVideoRef s; remoteVideoRef := remoteVideoRef s;
     peerConnection := peerConnection s; localStream := localStream s; bc := bc s;
     srcObject := srcObject s; connections := connections s;
     stoppedTracks := stoppedTracks s; trackCount := trackCount s;
     closedChannels := closedChannels s; channelCount := channelCount s;
     posted := posted s; console := console s;
     pendingUserMedia := pendingUserMedia s; pendingAnalyses := pendingAnalyses s |}.

Definition set_isAnalyzing (v : bool) (s : State) : State :=
  {| role := role s; isLive := isLive s; isAnalyzing := v;
     history := history s; error := error s;
     localVideoRef := localVideoRef s; remoteVideoRef := remoteVideoRef s;
     peerConnection := peerConnection s; localStream := localStream s; bc := bc s;
     srcObject := srcObject s; connections := connections s;
     stoppedTracks := stoppedTracks s; trackCount := trackCount s;
     closedChannels := closedChannels s; channelCount := channelCount s;
     posted := posted s; console := console s;
     pendingUserMedia := pendingUserMedia s; pendingAnalyses := pendingAnalyses s |}.

Definition set_history (v : list AnalysisResult) (s : State) : State :=
  {| role := role s; isLive := isLive s; isAnalyzing := isAnalyzing s;
     history := v; error := error s;
     localVideoRef := localVideoRef s; remoteVideoRef := remoteVideoRef s;
     peerConnection := peerConnection s; localStream := localStream s; bc := bc s;
     srcObject := srcObject s; connections := connections s;
     stoppedTracks := stoppedTracks s; trackCount := trackCount s;
     closedChannels := closedChannels s; channelCount := channelCount s;
     posted := posted s; console := console s;
     pendingUserMedia := pendingUserMedia s; pendingAnalyses := pendingAnalyses s |}.

Definition set_error (v : option string) (s : State) : State :=
  {| role := role s; isLive := isLive s; isAnalyzing := isAnalyzing s;
     history := history s; error := v;
     localVideoRef := localVideoRef s; remoteVideoRef := remoteVideoRef s;
     peerConnection := peerConnection s; localStream := localStream s; bc := bc s;
     srcObject := srcObject s; connections := connections s;
     stoppedTracks := stoppedTracks s; trackCount := trackCount s;
     closedChannels := closedChannels s; channelCount := channelCount s;
     posted := posted s; console := console s;
     pendingUserMedia := pendingUserMedia s; pendingAnalyses := pendingAnalyses s |}.

Definition set_videoRefs (loc rem : bool) (s : State) : State :=
  {| role := role s; isLive := isLive s; isAnalyzing := isAnalyzing s;
     history := history s; error := error s;
     localVideoRef := loc; remoteVideoRef := rem;
     peerConnection := peerConnection s; localStream := localStream s; bc := bc s;
     srcObject := srcObject s; connections := connections s;
     stoppedTracks := stoppedTracks s; trackCount := trackCount s;
     closedChannels := closedChannels s; channelCount := channelCount s;
     posted := posted s; console := console s;
     pendingUserMedia := pendingUserMedia s; pendingAnalyses := pendingAnalyses s |}.

Definition set_peerConnection (v : option nat) (s : State) : State :=
  {| role := role s; isLive := isLive s; isAnalyzing := isAnalyzing s;
     history := history s; error := error s;
     localVideoRef := localVideoRef s; remoteVideoRef := remoteVideoRef s;
     peerConnection := v; localStream := localStream s; bc := bc s;
     srcObject := srcObject s; connections := connections s;
     stoppedTracks := stoppedTracks s; trackCount := trackCount s;
     closedChannels := closedChannels s; channelCount := channelCount s;
     posted := posted s; console := console s;
     pendingUserMedia := pendingUserMedia s; pendingAnalyses := pendingAnalyses s |}.

Definition set_localStream (v : option (list nat)) (s : State) : State :=
  {| role := role s; isLive := isLive s; isAnalyzing := isAnalyzing s;
     history := history s; error := error s;
     localVideoRef := localVideoRef s; remoteVideoRef := remoteVideoRef s;
     peerConnection := peerConnection s; localStream := v; bc := bc s;
     srcObject := srcObject s; connections := connections s;
     stoppedTracks := stoppedTracks s; trackCount := trackCount s;
     closedChannels := closedChannels s; channelCount := channelCount s;
     posted := posted s; console := console s;
     pendingUserMedia := pendingUserMedia s; pendingAnalyses := pendingAnalyses s |}.

Definition set_bc (v : option BroadcastChannel) (s : State) : State :=
  {| role := role s; isLive := isLive s; isAnalyzing := isAnalyzing s;
     history := history s; error := error s;
     localVideoRef := localVideoRef s; remoteVideoRef := remoteVideoRef s;
     peerConnection := peerConnection s; localStream := localStream s; bc := v;
     srcObject := srcObject s; connections := connections s;
     stoppedTracks := stoppedTracks s; trackCount := trackCount s;
     closedChannels := closedChannels s; channelCount := channelCount s;
     posted := posted s; console := console s;
     pendingUserMedia := pendingUserMedia s; pendingAnalyses := pendingAnalyses s |}.

Definition set_srcObject (v : option MediaSource) (s : State) : State :=
  {| role := role s; isLive := isLive s; isAnalyzing := isAnalyzing s;
     history := history s; error := error s;
     localVideoRef := localVideoRef s; remoteVideoRef := remoteVideoRef s;
     peerConnection := peerConnection s; localStream := localStream s; bc := bc s;
     srcObject := v; connections := connections s;
     stoppedTracks := stoppedTracks s; trackCount := trackCount s;
     closedChannels := closedChannels s; channelCount := channelCount s;
     posted := posted s; console := console s;
     pendingUserMedia := pendingUserMedia s; pendingAnalyses := pendingAnalyses s |}.

Definition set_connections (v : list RTCPeerConnection) (s : State) : State :=
  {| role := role s; isLive := isLive s; isAnalyzing := isAnalyzing s;
     history := history s; error := error s;
     localVideoRef := localVideoRef s; remoteVideoRef := remoteVideoRef s;
     peerConnection := peerConnection s; localStream := localStream s; bc := bc s;
     srcObject := srcObject s; connections := v;
     stoppedTracks := stoppedTracks s; trackCount := trackCount s;
     closedChannels := closedChannels s; channelCount := channelCount s;
     posted := posted s; console := console s;
     pendingUserMedia := pendingUserMedia s; pendingAnalyses := pendingAnalyses s |}.

Definition set_stoppedTracks (v : list nat) (s : State) : State :=
  {| role := role s; isLive := isLive s; isAnalyzing := isAnalyzing s;
     history := history s; error := error s;
     localVideoRef := localVideoRef s; remoteVideoRef := remoteVideoRef s;
     peerConnection := peerConnection s; localStream := localStream s; bc := bc s;
     srcObject := srcObject s; connections := connections s;
     stoppedTracks := v; trackCount := trackCount s;
     closedChannels := closedChannels s; channelCount := channelCount s;
     posted := posted s; console := console s;
     pendingUserMedia := pendingUserMedia s; pendingAnalyses := pendingAnalyses s |}.

Definition set_trackCount (v : nat) (s : State) : State :=
  {| role := role s; isLive := isLive s; isAnalyzing := isAnalyzing s;
     history := history s; error := error s;
     localVideoRef := localVideoRef s; remoteVideoRef := remoteVideoRef s;
     peerConnection := peerConnection s; localStream := localStream s; bc := bc s;
     srcObject := srcObject s; connections := connections s;
     stoppedTracks := stoppedTracks s; trackCount := v;
     closedChannels := closedChannels s; channelCount := channelCount s;
     posted := posted s; console := console s;
     pendingUserMedia := pendingUserMedia s; pendingAnalyses := pendingAnalyses s |}.

Definition set_closedChannels (v : list nat) (s : State) : State :=
  {| role := role s; isLive := isLive s; isAnalyzing := isAnalyzing s;
     history := history s; error := error s;
     localVideoRef := localVideoRef s; remoteVideoRef := remoteVideoRef s;
     peerConnection := peerConnection s; localStream := localStream s; bc := bc s;
     srcObject := srcObject s; connections := connections s;
     stoppedTracks := stoppedTracks s; trackCount := trackCount s;
     closedChannels := v; channelCount := channelCount s;
     posted := posted s; console := console s;
     pendingUserMedia := pendingUserMedia s; pendingAnalyses := pendingAnalyses s |}.

Definition set_channelCount (v : nat) (s : State) : State :=
  {| role := role s; isLive := isLive s; isAnalyzing := isAnalyzing s;
     history := history s; error := error s;
     localVideoRef := localVideoRef s; remoteVideoRef := remoteVideoRef s;
     peerConnection := peerConnection s; localStream := localStream s; bc := bc s;
     srcObject := srcObject s; connections := connections s;
     stoppedTracks := stoppedTracks s; trackCount := trackCount s;
     closedChannels := closedChannels s; channelCount := v;
     posted := posted s; console := console s;
     pendingUserMedia := pendingUserMedia s; pendingAnalyses := pendingAnalyses s |}.

Definition set_posted (v : list (nat * SignalingMessage)) (s : State) : State :=
  {| role := role s; isLive := isLive s; isAnalyzing := isAnalyzing s;
     history := history s; error := error s;
     localVideoRef := localVideoRef s; remoteVideoRef := remoteVideoRef s;
     peerConnection := peerConnection s; localStream := localStream s; bc := bc s;
     srcObject := srcObject s; connections := connections s;
     stoppedTracks := stoppedTracks s; trackCount := trackCount s;
     closedChannels := closedChannels s; channelCount := channelCount s;
     posted := v; console := console s;
     pendingUserMedia := pendingUserMedia s; pendingAnalyses := pendingAnalyses s |}.

Definition set_console (v : list string) (s : State) : State :=
  {| role := role s; isLive := isLive s; isAnalyzing := isAnalyzing s;
     history := history s; error := error s;
     localVideoRef := localVideoRef s; remoteVideoRef := remoteVideoRef s;
     peerConnection := peerConnection s; localStream := localStream s; bc := bc s;
     srcObject := srcObject s; connections := connections s;
     stoppedTracks := stoppedTracks s; trackCount := trackCount s;
     closedChannels := closedChannels s; channelCount := channelCount s;
     posted := posted s; console := v;
     pendingUserMedia := pendingUserMedia s; pendingAnalyses := pendingAnalyses s |}.

Definition set_pendingUserMedia (v : list AppRole) (s : State) : State :=
  {| role := role s; isLive := isLive s; isAnalyzing := isAnalyzing s;
     history := history s; error := error s;
     localVideoRef := localVideoRef s; remoteVideoRef := remoteVideoRef s;
     peerConnection := peerConnection s; localStream := localStream s; bc := bc s;
     srcObject := srcObject s; connections := connections s;
     stoppedTracks := stoppedTracks s; trackCount := trackCount s;
     closedChannels := closedChannels s; channelCount := channelCount s;
     posted := posted s; console := console s;
     pendingUserMedia := v; pendingAnalyses := pendingAnalyses s |}.

Definition set_pendingAnalyses (v : list AnalysisTask) (s : State) : State :=
  {| role := role s; isLive := isLive s; isAnalyzing := isAnalyzing s;
     history := history s; error := error s;
     localVideoRef := localVideoRef s; remoteVideoRef := remoteVideoRef s;
     peerConnection := peerConnection s; localStream := localStream s; bc := bc s;
     srcObject := srcObject s; connections := connections s;
     stoppedTracks := stoppedTracks s; trackCount := trackCount s;
     closedChannels := closedChannels s; channelCount := channelCount s;
     posted := posted s; console := console s;
     pendingUserMedia := pendingUserMedia s; pendingAnalyses := v |}.

(** ** The monad of handlers: state and exceptions *)

Inductive Completion (A : Type) := Normal (a : A) | Thrown.
Arguments Normal {A} a.
Arguments Thrown {A}.

Definition Js (A : Type) : Type := State -> Completion A * State.

Definition ret {A} (a : A) : Js A := fun s => (Normal a, s).

Definition bind {A B} (m : Js A) (k : A -> Js B) : Js B :=
  fun s => match m s with
           | (Normal a, s') => k a s'
           | (Thrown, s') => (Thrown, s')
           end.

Definition throw {A} : Js A := fun s => (Thrown, s).

(** [try { body } catch { handler }] *)
Definition try_catch {A} (body handler : Js A) : Js A :=
  fun s => match body s with
           | (Normal a, s') => (Normal a, s')
           | (Thrown, s') => handler s'
           end.

Definition read {A} (f : State -> A) : Js A := fun s => (Normal (f s), s).
Definition write (f : State -> State) : Js unit := fun s => (Normal tt, f s).

(** The state a computation leaves, however it completes. *)
Definition exec {A} (m : Js A) (s : State) : State := snd (m s).

Declare Scope js_scope.
Delimit Scope js_scope with js.
Notation "x <- m ;; k" := (bind m (fun x => k))
  (at level 100, m at next level, right associativity) : js_scope.
Notation "m ;; k" := (bind m (fun _ => k))
  (at level 100, right associativity) : js_scope.
Open Scope js_scope.

(** [xs.forEach(f)] *)
Fixpoint forEach {A} (xs : list A) (f : A -> Js unit) : Js unit :=
  match xs with
  | [] => ret tt
  | x :: xs' => f x ;; forEach xs' f
  end.

(** ** Browser primitives used by the component *)

Definition with_senders (v : list nat) (c : RTCPeerConnection) : RTCPeerConnection :=
  {| candidate_sender := candidate_sender c; senders := v;
     localDescription := localDescription c; remoteDescription := remoteDescription c;
     iceCandidates := iceCandidates c; isClosed := isClosed c |}.

Definition with_localDescription (v : option Payload) (c : RTCPeerConnection) : RTCPeerConnection :=
  {| candidate_sender := candidate_sender c; senders := senders c;
     localDescription := v; remoteDescription := remoteDescription c;
     iceCandidates := iceCandidates c; isClosed := isClosed c |}.

Definition with_remoteDescription (v : option Payload) (c : RTCPeerConnection) : RTCPeerConnection :=
  {| candidate_sender := candidate_sender c; senders := senders c;
     localDescription := localDescription c; remoteDescription := v;
     iceCandidates := iceCandidates c; isClosed := isClosed c |}.

Definition with_iceCandidates (v : list Payload) (c : RTCPeerConnection) : RTCPeerConnection :=
  {| candidate_sender := candidate_sender c; senders := senders c;
     localDescription := localDescription c; remoteDescription := remoteDescription c;
     iceCandidates := v; isClosed := isClosed c |}.

Definition with_isClosed (v : bool) (c : RTCPeerConnection) : RTCPeerConnection :=
  {| candidate_sender := candidate_sender c; senders := senders c;
     localDescription := localDescription c; remoteDescription := remoteDescription c;
     iceCandidates := iceCandidates c; isClosed := v |}.

(** Mutation of the connection object [pc]. *)
Definition update_connection (pc : nat) (f : RTCPeerConnection -> RTCPeerConnection) : Js unit :=
  write (fun s => set_connections (alter f pc (connections s)) s).

(** [track.stop()] *)
Definition MediaStreamTrack_stop (t : nat) : Js unit :=
  write (fun s => set_stoppedTracks (t :: stoppedTracks s) s).

(** [pc.close()] *)
Definition RTCPeerConnection_close (pc : nat) : Js unit :=
  update_connection pc (with_isClosed true).

(** [pc.addTrack(track, stream)] *)
Definition addTrack (pc track : nat) : Js unit :=
  update_connection pc (fun c => with_senders (senders c ++ [track]) c).

(** [await pc.createOffer()], [await pc.createAnswer()]: the description the
    transport made, or a rejection. *)
Definition created (result : option Payload) : Js Payload :=
  match result with Some d => ret d | None => throw end.

(** [await pc.setLocalDescription(d)] *)
Definition setLocalDescription (pc : nat) (d : Payload) (ok : bool) : Js unit :=
  if ok then update_connection pc (with_localDescription (Some d)) else throw.

(** [await pc.setRemoteDescription(new RTCSessionDescription(d))] *)
Definition setRemoteDescription (pc : nat) (d : Payload) (ok : bool) : Js unit :=
  if ok then update_connection pc (with_remoteDescription (Some d)) else throw.

(** [await pc.addIceCandidate(new RTCIceCandidate(c))] *)
Definition addIceCandidate (pc : nat) (c : Payload) (ok : bool) : Js unit :=
  if ok then update_connection pc (fun x => with_iceCandidates (iceCandidates x ++ [c]) x)
  else throw.

(** [await navigator.mediaDevices.getUserMedia(...)]: a stream of [n] fresh
    tracks, or a rejection. *)
Definition getUserMedia (result : option nat) : Js (list nat) :=
  match result with
  | Some n =>
      first <- read trackCount ;;
      write (set_trackCount (first + n)) ;;
      ret (seq first n)
  | None => throw
  end.

(** [bc.current?.postMessage(m)]; posting on a closed channel throws. *)
Definition postMessage (m : SignalingMessage) : Js unit :=
  ch <- read bc ;;
  match ch with
  | None => ret tt
  | Some ch =>
      closed <- read closedChannels ;;
      if decide (channelId ch ∈ closed) then throw
      else write (fun s => set_posted (posted s ++ [(channelId ch, m)]) s)
  end.

(** [bc.current?.postMessage(m)] for a message [m] that holds an
    [RTCIceCandidate], a platform object that is not serializable: on a
    closed channel the call throws as above, and on an open one the
    structured clone of [postMessage] throws (DataCloneError).  Nothing is
    sent either way. *)
Definition postMessage_RTCIceCandidate (m : SignalingMessage) : Js unit :=
  ch <- read bc ;;
  match ch with
  | None => ret tt
  | Some _ => throw
  end.

(** [channel.close()] *)
Definition BroadcastChannel_close (ch : BroadcastChannel) : Js unit :=
  write (fun s => set_closedChannels (channelId ch :: closedChannels s) s).

(** [console.error(text, err)] *)
Definition console_error (text : string) : Js unit :=
  write (fun s => set_console (console s ++ [text]) s).

(** ** The component [App] *)

Definition setRole (v : AppRole) : Js unit := write (set_role v).
Definition setIsLive (v : bool) : Js unit := write (set_isLive v).
Definition setIsAnalyzing (v : bool) : Js unit := write (set_isAnalyzing v).
Definition setError (v : option string) : Js unit := write (set_error v).
Definition setHistory (f : list AnalysisResult -> list AnalysisResult) : Js unit :=
  write (fun s => set_history (f (history s)) s).

Definition new_RTCPeerConnection (captured : AppRole) : RTCPeerConnection :=
  {| candidate_sender := captured; senders := [];
     localDescription := None; remoteDescription := None;
     iceCandidates := []; isClosed := false |}.

Definition cleanup : Js unit :=
  stream <- read localStream ;;
  match stream with
  | Some tracks => forEach tracks MediaStreamTrack_stop
  | None => ret tt
  end ;;
  pc <- read peerConnection ;;
  match pc with
  | Some pc => RTCPeerConnection_close pc
  | None => ret tt
  end ;;
  write (set_peerConnection None) ;;
  setIsLive false.

Definition handleOffer (sdp : Payload) (reply : TransportReply) : Js unit :=
  pc <- read peerConnection ;;
  match pc with
  | None => ret tt
  | Some pc =>
      setRemoteDescription pc sdp (setRemoteDescription_ok reply) ;;
      ans <- created (createAnswer_result reply) ;;
      setLocalDescription pc ans (setLocalDescription_ok reply) ;;
      postMessage {| type := answer; payload := ans; senderId := AppRole_value PEER |}
  end.

Definition handleAnswer (sdp : Payload) (reply : TransportReply) : Js unit :=
  pc <- read peerConnection ;;
  match pc with
  | None => ret tt
  | Some pc => setRemoteDescription pc sdp (setRemoteDescription_ok reply)
  end.

Section Render.
(** The React state seen by the closures of one render. *)
Variable role_ : AppRole.
Variable isAnalyzing_ : bool.

(** [bc.current.onmessage] *)
Definition onmessage (msg : SignalingMessage) (reply : TransportReply) : Js unit :=
  if decide (role_ = IDLE) then ret tt
  else
    try_catch
      (if decide (type msg = offer ∧ role_ = PEER) then
         handleOffer (payload msg) reply
       else if decide (type msg = answer ∧ role_ = HOST) then
         handleAnswer (payload msg) reply
       else if decide (type msg = candidate) then
         pc <- read peerConnection ;;
         match pc with
         | Some pc => addIceCandidate pc (payload msg) (addIceCandidate_ok reply)
         | None => ret tt
         end
       else ret tt)
      (console_error "Signal Handling Error:").

(** [pc.onicecandidate]; [None] is the null candidate that ends gathering.
    The payload of the message is the [RTCIceCandidate] object of the event
    itself. *)
Definition onicecandidate (cand : option Payload) : Js unit :=
  match cand with
  | Some c =>
      postMessage_RTCIceCandidate
        {| type := candidate; payload := c; senderId := AppRole_value role_ |}
  | None => ret tt
  end.

(** [pc.ontrack] *)
Definition ontrack (pc : nat) : Js unit :=
  remote <- read remoteVideoRef ;;
  if remote then
    write (set_srcObject (Some (RemoteMedia pc))) ;;
    setIsLive true
  else ret tt.

(** [pc.onconnectionstatechange] *)
Definition onconnectionstatechange (connectionState : RTCPeerConnectionState) : Js unit :=
  match connectionState with cs_connected => setIsLive true | _ => ret tt end ;;
  match connectionState with
  | cs_disconnected | cs_failed => setIsLive false
  | _ => ret tt
  end.

Definition createPeerConnection : Js nat :=
  pc <- read (fun s => length (connections s)) ;;
  write (fun s => set_connections (connections s ++ [new_RTCPeerConnection role_]) s) ;;
  write (set_peerConnection (Some pc)) ;;
  ret pc.

(** [startHost] up to its first [await]: the role is set and the request
    for the camera is out. *)
Definition startHost : Js unit :=
  setRole HOST ;;
  write (fun s => set_pendingUserMedia (pendingUserMedia s ++ [role_]) s).

(** [startHost] from the settlement of [getUserMedia] to its end. *)
Definition startHost_resume (media : option nat) (createdOffer : option Payload)
    (setLocalOk : bool) : Js unit :=
  try_catch
    (stream <- getUserMedia media ;;
     write (set_localStream (Some stream)) ;;
     loc <- read localVideoRef ;;
     (if loc then write (set_srcObject (Some (LocalMedia stream))) else ret tt) ;;
     pc <- createPeerConnection ;;
     forEach stream (addTrack pc) ;;
     sdp <- created createdOffer ;;
     setLocalDescription pc sdp setLocalOk ;;
     postMessage {| type := offer; payload := sdp; senderId := AppRole_value HOST |} ;;
     setIsLive true)
    (setError (Some "Camera access failed. Check permissions.")).

Definition joinPeer : Js unit :=
  setRole PEER ;;
  createPeerConnection ;;
  ret tt.

(** The [onClick] of the End Session button. *)
Definition endSession : Js unit :=
  cleanup ;;
  setRole IDLE.

(** *** runAnalysis *)

Definition runAnalysis_catch : Js unit :=
  setError (Some "AI analysis failed. Please ensure your API_KEY is valid and try again.") ;;
  console_error "AI analysis failed".

Definition runAnalysis_finally : Js unit := setIsAnalyzing false.

(** A stretch of the [try] block of [runAnalysis] between two [await]s: it
    ends suspended at the next [await] ([Some task]), by a [return] or the
    end of the block ([None]), or by an exception, which [catch] handles;
    [finally] runs once the block is left. *)
Definition runAnalysis_try (body : Js (option AnalysisTask)) : Js unit :=
  next <- try_catch body (runAnalysis_catch ;; ret None) ;;
  match next with
  | Some task => write (fun s => set_pendingAnalyses (pendingAnalyses s ++ [task]) s)
  | None => runAnalysis_finally
  end.

(** [ctx.drawImage(...); frames.push(canvas.toDataURL(...))]: the frame the
    canvas gives, or an exception. *)
Definition capture (frames : list string) (frame : option string) : Js (list string) :=
  match frame with Some f => ret (frames ++ [f]) | None => throw end.

(** [runAnalysis] up to its first [await]. *)
Definition runAnalysis (ctx : bool) (frame : option string) : Js unit :=
  if isAnalyzing_ then ret tt
  else
    setIsAnalyzing true ;;
    setError None ;;
    video <- (if decide (role_ = HOST) then read localVideoRef else read remoteVideoRef) ;;
    if negb video then ret tt
    else
      runAnalysis_try
        (if negb ctx then ret None
         else
           frames <- capture [] frame ;;
           ret (Some (Sampling frames))).

(** After the timer of the sampling loop: the next turn of the loop, or the
    call of [analyzeVideoFrames] when three frames are taken. *)
Definition runAnalysis_timer (frames : list string) (frame : option string) : Js unit :=
  runAnalysis_try
    (if decide (length frames < 3) then
       frames' <- capture frames frame ;;
       ret (Some (Sampling frames'))
     else ret (Some (InService frames))).

(** After [analyzeVideoFrames] settled. *)
Definition runAnalysis_result (result : option AnalysisResult) : Js unit :=
  runAnalysis_try
    (match result with
     | Some r => setHistory (fun prev => r :: prev) ;; ret None
     | None => throw
     end).

(** *** The effect of [useEffect(..., [role])] *)

Definition effect : Js unit :=
  write (fun s =>
    set_channelCount (S (channelCount s))
      (set_bc (Some {| channelId := channelCount s; onmessage_role := role_ |}) s)).

Definition effect_cleanup : Js unit :=
  ch <- read bc ;;
  match ch with
  | Some ch => BroadcastChannel_close ch
  | None => ret tt
  end ;;
  cleanup.

End Render.

(** The re-render after a handler that ran in the render of [rendered]: when
    [role] changed, the video element moves to the ref of the new role, the
    effect of the old render is cleaned up and the effect runs again. *)
Definition commit (rendered : AppRole) : Js unit :=
  r <- read role ;;
  if decide (r = rendered) then ret tt
  else
    write (set_videoRefs (bool_decide (r = HOST)) (negb (bool_decide (r = HOST)))) ;;
    effect_cleanup ;;
    effect r.

(** ** Events *)

Inductive Event :=
  | ClickStartStreaming
  | ClickJoinSession
  | ClickEndSession
  | UserMediaSettled (k : nat) (media : option nat) (createdOffer : option Payload)
      (setLocalOk : bool)
  | BusMessage (msg : SignalingMessage) (reply : TransportReply)
  | IceCandidateEvent (pc : nat) (cand : option Payload)
  | TrackEvent (pc : nat)
  | ConnectionStateChangeEvent (pc : nat) (connectionState : RTCPeerConnectionState)
  | ClickAnalyze (ctx : bool) (frame : option string)
  | TimerElapsed (k : nat) (frame : option string)
  | AnalysisSettled (k : nat) (result : option AnalysisResult).

(** A callback of the connection [pc]; a closed connection fires none. *)
Definition on_connection (pc : nat) (h : RTCPeerConnection -> Js unit) : Js unit :=
  conns <- read connections ;;
  match conns !! pc with
  | Some c => if isClosed c then ret tt else h c
  | None => ret tt
  end.

(** The handler an event runs, in the state [s] where it fires. *)
Definition handler (s : State) (e : Event) : Js unit :=
  match e with
  | ClickStartStreaming => startHost (role s)
  | ClickJoinSession => joinPeer (role s)
  | ClickEndSession => endSession
  | UserMediaSettled k media createdOffer setLocalOk =>
      match pendingUserMedia s !! k with
      | Some captured =>
          write (fun x => set_pendingUserMedia (delete k (pendingUserMedia x)) x) ;;
          startHost_resume captured media createdOffer setLocalOk
      | None => ret tt
      end
  | BusMessage msg reply =>
      match bc s with
      | Some ch =>
          if decide (channelId ch ∈ closedChannels s) then ret tt
          else onmessage (onmessage_role ch) msg reply
      | None => ret tt
      end
  | IceCandidateEvent pc cand =>
      on_connection pc (fun c => onicecandidate (candidate_sender c) cand)
  | TrackEvent pc => on_connection pc (fun _ => ontrack pc)
  | ConnectionStateChangeEvent pc connectionState =>
      on_connection pc (fun _ => onconnectionstatechange connectionState)
  | ClickAnalyze ctx frame => runAnalysis (role s) (isAnalyzing s) ctx frame
  | TimerElapsed k frame =>
      match pendingAnalyses s !! k with
      | Some (Sampling frames) =>
          write (fun x => set_pendingAnalyses (delete k (pendingAnalyses x)) x) ;;
          runAnalysis_timer frames frame
      | _ => ret tt
      end
  | AnalysisSettled k result =>
      match pendingAnalyses s !! k with
      | Some (InService _) =>
          write (fun x => set_pendingAnalyses (delete k (pendingAnalyses x)) x) ;;
          runAnalysis_result result
      | _ => ret tt
      end
  end.

(** One turn: the handler, then the re-render. *)
Definition step (s : State) (e : Event) : State :=
  exec (commit (role s)) (exec (handler s e) s).

Definition run (s : State) (es : list Event) : State := foldl step s es.

(** The component after its first render: idle, subscribed to the channel. *)
Definition init : State :=
  {| role := IDLE; isLive := false; isAnalyzing := false; history := []; error := None;
     localVideoRef := false; remoteVideoRef := true;
     peerConnection := None; localStream := None;
     bc := Some {| channelId := 0; onmessage_role := IDLE |};
     srcObject := None; connections := []; stoppedTracks := []; trackCount := 0;
     closedChannels := []; channelCount := 1; posted := []; console := [];
     pendingUserMedia := []; pendingAnalyses := [] |}.

(** What the page offers: the buttons rendered and enabled in state [s]. *)
Definition offered (s : State) (e : Event) : bool :=
  match e with
  | ClickStartStreaming | ClickJoinSession => bool_decide (role s = IDLE)
  | ClickEndSession => negb (bool_decide (role s = IDLE))
  | ClickAnalyze _ _ => negb (isAnalyzing s || negb (isLive s))
  | _ => true
  end.

(** The props [VideoControls] is rendered with. *)
Record VideoControlsProps := {
  props_isAnalyzing : bool;
  props_isLive : bool;
  props_role : string
}.

Definition render_VideoControls (s : State) : VideoControlsProps :=
  {| props_isAnalyzing := isAnalyzing s; props_isLive := isLive s;
     props_role := AppRole_value (role s) |}.

(** ** Notions used by the properties *)

(** *** Observations of a state *)

(** The connections that are not closed. *)
Definition alive_connections (s : State) : list RTCPeerConnection :=
  List.filter (fun c => negb (isClosed c)) (connections s).

(** The candidates the component has handed to connection [pc] and the
    transport has taken, in the order they were applied. *)
Definition candidates_of (s : State) (pc : nat) : option (list Payload) :=
  iceCandidates <$> connections s !! pc.

Definition candidates_view (s : State) : list (list Payload) :=
  iceCandidates <$> connections s.

Definition is_InService (t : AnalysisTask) : bool :=
  match t with InService _ => true | Sampling _ => false end.

(** The calls of [analyzeVideoFrames] that have not settled. *)
Definition in_flight (s : State) : nat :=
  length (List.filter is_InService (pendingAnalyses s)).

(** What the analysis invariant looks at. *)
Definition analysis_view (s : State) : list AnalysisTask * bool :=
  (pendingAnalyses s, isAnalyzing s).

(** What the session invariant looks at: which connections are closed, the
    current one, the role, the camera requests that are out. *)
Definition closed_view (s : State) : list bool * option nat * AppRole * list AppRole :=
  (isClosed <$> connections s, peerConnection s, role s, pendingUserMedia s).

(** What the attachment invariant looks at: the tracks added to each
    connection, the current connection, the local stream. *)
Definition media_view (s : State) : list (list nat) * option nat * option (list nat) :=
  (senders <$> connections s, peerConnection s, localStream s).

(** An idle component: no role, no current connection, not live. *)
Definition idle_equivalent (s : State) : Prop :=
  role s = IDLE /\ peerConnection s = None /\ isLive s = false.

(** A session that has a role but no connection behind it. *)
Definition partially_initialized (s : State) : Prop :=
  role s <> IDLE /\ peerConnection s = None.

(** *** Handlers *)

(** [m] leaves the observation [f] of the state as it is, however it
    completes. *)
Definition preserves {A B} (f : State -> B) (m : Js A) : Prop :=
  forall s, f (snd (m s)) = f s.

(** [m] never ends by an exception. *)
Definition completes {A} (m : Js A) : Prop :=
  forall s, exists a, fst (m s) = Normal a.

(** The state [cleanup] leaves: the tracks of the local stream stopped (in
    the order of [forEach]), the current connection closed and forgotten,
    [isLive] false. *)
Definition cleaned (s : State) : State :=
  set_isLive false
    (set_peerConnection None
       (set_connections
          (match peerConnection s with
           | Some pc => alter (with_isClosed true) pc (connections s)
           | None => connections s
           end)
          (set_stoppedTracks
             (match localStream s with
              | Some tracks => reverse tracks ++ stoppedTracks s
              | None => stoppedTracks s
              end) s))).

(** What [addIceCandidate] does to a connection when the transport takes
    the candidate. *)
Definition add_candidate (c : Payload) (x : RTCPeerConnection) : RTCPeerConnection :=
  with_iceCandidates (iceCandidates x ++ [c]) x.

(** What [onconnectionstatechange] makes of [isLive]. *)
Definition tracked (connectionState : RTCPeerConnectionState) (live : bool) : bool :=
  match connectionState with
  | cs_connected => true
  | cs_disconnected | cs_failed => false
  | _ => live
  end.

(** *** Invariants *)

(** The channel in use was made by the effect of the current render: the
    role its [onmessage] captured is the role of the component. *)
Definition subscribed (s : State) : Prop :=
  exists ch, bc s = Some ch /\ onmessage_role ch = role s.

(** At most one invocation of [runAnalysis] is suspended, and while one is,
    [isAnalyzing] is set. *)
Definition analysis_inv (s : State) : Prop :=
  match pendingAnalyses s with
  | [] => True
  | [_] => isAnalyzing s = true
  | _ => False
  end.

Definition session_ok (v : list bool * option nat * AppRole * list AppRole) : Prop :=
  let '(closed, current, r, pending) := v in
  (forall i, closed !! i = Some false -> current = Some i) /\
  (r = IDLE -> current = None) /\
  (pending <> [] -> r <> IDLE /\ current = None) /\
  length pending <= 1.

(** Only the current connection can be alive; an idle component and one that
    waits for the camera have no current connection; at most one camera
    request is out. *)
Definition session_inv (s : State) : Prop := session_ok (closed_view s).

Definition attached_ok (v : list (list nat) * option nat * option (list nat)) : Prop :=
  let '(added, current, stream) := v in
  forall pc ts t, current = Some pc -> added !! pc = Some ts -> t ∈ ts ->
    exists tracks, stream = Some tracks /\ t ∈ tracks.

(** The tracks added to the current connection are tracks of the local
    stream in [localStream.current]. *)
Definition attached_inv (s : State) : Prop := attached_ok (media_view s).

(** *** Runs driven through the page *)

(** The user does not click a session button while the camera prompt is
    open. *)
Definition patient (s : State) (e : Event) : bool :=
  match e with
  | ClickStartStreaming | ClickJoinSession | ClickEndSession =>
      bool_decide (pendingUserMedia s = [])
  | _ => true
  end.

(** Every click of [es] is on a button the page offers. *)
Fixpoint all_offered (s : State) (es : list Event) : bool :=
  match es with
  | [] => true
  | e :: es' => offered s e && all_offered (step s e) es'
  end.

(** Every click of [es] is on a button the page offers, and is patient. *)
Fixpoint admissible (s : State) (es : list Event) : bool :=
  match es with
  | [] => true
  | e :: es' => offered s e && patient s e && admissible (step s e) es'
  end.

(** *** Sample runs *)

(** A transport that accepts every request, and one that refuses candidates. *)
Definition accepting : TransportReply :=
  {| setRemoteDescription_ok := true; createAnswer_result := Some 61;
     setLocalDescription_ok := true; addIceCandidate_ok := true |}.

Definition refusing_candidates : TransportReply :=
  {| setRemoteDescription_ok := true; createAnswer_result := Some 61;
     setLocalDescription_ok := true; addIceCandidate_ok := false |}.

Definition signal (t : SignalType) (p : Payload) (sender : AppRole) : SignalingMessage :=
  {| type := t; payload := p; senderId := AppRole_value sender |}.

(** Start Streaming, camera granted (two tracks), offer 50 made and posted. *)
Definition start_streaming : list Event :=
  [ClickStartStreaming; UserMediaSettled 0 (Some 2) (Some 50) true].

Definition host_awaiting_answer : State := run init start_streaming.

(** Start Streaming, camera refused. *)
Definition camera_denied : State :=
  run init [ClickStartStreaming; UserMediaSettled 0 None None false].

(** A host whose analysis is in the call of the service: three frames
    sampled, the third timer elapsed. *)
Definition analysing : list Event :=
  start_streaming ++
  [ClickAnalyze true (Some "f0"); TimerElapsed 0 (Some "f1"); TimerElapsed 0 (Some "f2");
   TimerElapsed 0 None].

(** ** Further notions *)

(** *** Invariants of every run *)

(** The channel in use is the newest one, it is subscribed for the current
    role, and the closed channels are exactly the older ones. *)
Definition channel_inv (s : State) : Prop :=
  exists ch, bc s = Some ch /\ onmessage_role ch = role s /\
    S (channelId ch) = channelCount s /\
    forall id, id ∈ closedChannels s <-> id < channelId ch.

Definition channel_view (s : State) : option BroadcastChannel * list nat * nat :=
  (bc s, closedChannels s, channelCount s).

(** The video element sits in [localVideoRef] for a HOST and in
    [remoteVideoRef] otherwise, as the JSX says. *)
Definition refs_inv (s : State) : Prop :=
  localVideoRef s = bool_decide (role s = HOST) /\
  remoteVideoRef s = negb (bool_decide (role s = HOST)).

Definition video_refs (s : State) : bool * bool :=
  (localVideoRef s, remoteVideoRef s).

(** [isAnalyzing] is set exactly while one invocation of [runAnalysis] is
    suspended, and never more than one is. *)
Definition busy_inv (s : State) : Prop :=
  match pendingAnalyses s with
  | [] => isAnalyzing s = false
  | [_] => isAnalyzing s = true
  | _ => False
  end.

(** *** Closed forms *)

(** The connection [startHost] has made when every step succeeded. *)
Definition host_connection (captured : AppRole) (tracks : list nat) (sdp : Payload)
    : RTCPeerConnection :=
  {| candidate_sender := captured; senders := tracks; localDescription := Some sdp;
     remoteDescription := None; iceCandidates := []; isClosed := false |}.

(** The state [startHost] leaves when the camera gave [n] tracks, the
    transport made the offer [sdp] and took it, and the channel [id] is
    open. *)
Definition granted (captured : AppRole) (n : nat) (sdp : Payload) (id : nat) (s : State)
    : State :=
  set_isLive true
    (set_posted (posted s ++ [(id, signal offer sdp HOST)])
       (set_connections
          (connections s ++ [host_connection captured (seq (trackCount s) n) sdp])
          (set_peerConnection (Some (length (connections s)))
             (set_srcObject
                (if localVideoRef s then Some (LocalMedia (seq (trackCount s) n))
                 else srcObject s)
                (set_localStream (Some (seq (trackCount s) n))
                   (set_trackCount (trackCount s + n) s)))))).

(** Everything a signaling message has no business with. *)
Definition ambient_view (s : State) :=
  (isLive s, isAnalyzing s, history s, error s, localVideoRef s, remoteVideoRef s,
   bc s, srcObject s, stoppedTracks s, trackCount s, closedChannels s, channelCount s,
   pendingAnalyses s).

(** What [handleOffer] does to a connection when every step succeeds. *)
Definition answered (sdp ans : Payload) (c : RTCPeerConnection) : RTCPeerConnection :=
  with_localDescription (Some ans) (with_remoteDescription (Some sdp) c).

(** A transport that takes the offer but makes no answer. *)
Definition no_answer_made : TransportReply :=
  {| setRemoteDescription_ok := true; createAnswer_result := None;
     setLocalDescription_ok := true; addIceCandidate_ok := true |}.

(** The component between the handler of Join Session and the re-render:
    the only state in which a joining peer has a connection. *)
Definition peer_before_render : State := exec (joinPeer IDLE) init.

(** *** Invariants of runs driven through the page *)

(** [m] keeps the invariant [I], however it completes. *)
Definition maintains {A} (I : State -> Prop) (m : Js A) : Prop :=
  forall s, I s -> I (snd (m s)).

Definition not_answer (p : nat * SignalingMessage) : Prop := type p.2 <> answer.

(** No answer has been posted. *)
Definition no_answer_posted (s : State) : Prop := Forall not_answer (posted s).

Definition peer_view (s : State) : AppRole * option nat * list AppRole :=
  (role s, peerConnection s, pendingUserMedia s).

(** A PEER has no connection and no camera request, and no answer has been
    posted. *)
Definition peer_inv (s : State) : Prop :=
  subscribed s /\
  (role s = PEER -> peerConnection s = None /\ pendingUserMedia s = []) /\
  no_answer_posted s.

(** Only a host is live; with the invariants this one needs. *)
Definition live_inv (s : State) : Prop :=
  session_inv s /\ peer_inv s /\ (isLive s = true -> role s = HOST).

(** ** The request of [analyzeVideoFrames] *)

(** [s.split(sep)] for a separator of one character: the pieces of [s]
    between the occurrences of [sep], in order; never the empty array. *)
Fixpoint String_split (sep : Ascii.ascii) (s : string) : list string :=
  match s with
  | EmptyString => [EmptyString]
  | String c rest =>
      if Ascii.eqb c sep then EmptyString :: String_split sep rest
      else
        match String_split sep rest with
        | piece :: pieces => String c piece :: pieces
        | [] => [String c EmptyString]
        end
  end.

(** [s.includes(c)] for one character. *)
Fixpoint includes (c : Ascii.ascii) (s : string) : bool :=
  match s with
  | EmptyString => false
  | String c' rest => Ascii.eqb c' c || includes c rest
  end.

(** The character [','] (code 44). *)
Definition comma : Ascii.ascii := Eval cbv in Ascii.ascii_of_nat 44.

(** A part of the request; the [data] of an image is [None] where the
    source leaves it [undefined]. *)
Inductive Part :=
  | InlineData (mimeType : string) (data : option string)
  | Text (text : string).

(** The callback of [base64Frames.map]. *)
Definition inline_part (data : string) : Part :=
  InlineData "image/jpeg" (String_split comma data !! 1).

(** [[...parts, { text: prompt }]] *)
Definition request_parts (prompt : string) (base64Frames : list string) : list Part :=
  (inline_part <$> base64Frames) ++ [Text prompt].

(** The data URL of [body] with the media type [prefix]. *)
Definition data_url (frame : string * string) : string :=
  String.append frame.1 (String comma frame.2).

Definition no_comma (frame : string * string) : Prop :=
  includes comma frame.1 = false /\ includes comma frame.2 = false.

(** *** The messages and the tracks of a run *)

Definition not_candidate (p : nat * SignalingMessage) : Prop := type p.2 <> candidate.

(** No candidate has been posted. *)
Definition no_candidate_posted (s : State) : Prop := Forall not_candidate (posted s).






(** Start Streaming, End Session and Join Session before the camera
    answered; then the request is granted and [startHost] goes on in a
    component that is a PEER. *)
Definition stale_grant_as_peer : list Event :=
  [ClickStartStreaming; ClickEndSession; ClickJoinSession;
   UserMediaSettled 0 (Some 2) (Some 50) true].

(** * Properties *)

(** ** Reasoning about handlers *)

Section Frame.
Context {B : Type} (f : State -> B).

Lemma preserves_ret {A} (a : A) : preserves f (ret a).
Proof. intros s. reflexivity. Qed.

Lemma preserves_throw {A} : preserves f (@throw A).
Proof. intros s. reflexivity. Qed.

Lemma preserves_read {A} (g : State -> A) : preserves f (read g).
Proof. intros s. reflexivity. Qed.

Lemma preserves_write (g : State -> State) :
  (forall s, f (g s) = f s) -> preserves f (write g).
Proof. intros H s. apply H. Qed.

Lemma preserves_bind {A C} (m : Js A) (k : A -> Js C) :
  preserves f m -> (forall a, preserves f (k a)) -> preserves f (bind m k).
Proof.
  intros Hm Hk s. unfold bind. specialize (Hm s).
  destruct (m s) as [[a|] s']; simpl in *; [|assumption].
  rewrite Hk. assumption.
Qed.

Lemma preserves_try_catch {A} (body handler : Js A) :
  preserves f body -> preserves f handler -> preserves f (try_catch body handler).
Proof.
  intros Hb Hh s. unfold try_catch. specialize (Hb s).
  destruct (body s) as [[a|] s']; simpl in *; [assumption|].
  rewrite Hh. assumption.
Qed.

Lemma preserves_forEach {A} (xs : list A) (g : A -> Js unit) :
  (forall x, preserves f (g x)) -> preserves f (forEach xs g).
Proof.
  intros Hg. induction xs as [|x xs IH]; simpl.
  - apply preserves_ret.
  - apply preserves_bind; [apply Hg | intros _; apply IH].
Qed.

Lemma preserves_exec {A} (m : Js A) s : preserves f m -> f (exec m s) = f s.
Proof. intros H. apply H. Qed.
End Frame.

Section Completion.
Lemma completes_ret {A} (a : A) : completes (ret a).
Proof. intros s. exists a. reflexivity. Qed.

Lemma completes_read {A} (g : State -> A) : completes (read g).
Proof. intros s. exists (g s). reflexivity. Qed.

Lemma completes_write (g : State -> State) : completes (write g).
Proof. intros s. exists tt. reflexivity. Qed.

Lemma completes_bind {A C} (m : Js A) (k : A -> Js C) :
  completes m -> (forall a, completes (k a)) -> completes (bind m k).
Proof.
  intros Hm Hk s. unfold bind. destruct (Hm s) as [a Ha].
  destruct (m s) as [[a'|] s']; simpl in *; [apply Hk | discriminate].
Qed.

Lemma completes_try_catch {A} (body handler : Js A) :
  completes handler -> completes (try_catch body handler).
Proof.
  intros Hh s. unfold try_catch.
  destruct (body s) as [[a|] s']; simpl; [eauto | apply Hh].
Qed.

Lemma completes_forEach {A} (xs : list A) (g : A -> Js unit) :
  (forall x, completes (g x)) -> completes (forEach xs g).
Proof.
  intros Hg. induction xs as [|x xs IH]; simpl.
  - apply completes_ret.
  - apply completes_bind; [apply Hg | intros _; apply IH].
Qed.

(** Sequencing after a computation that completes. *)
Lemma bind_completes {C} (m : Js unit) (k : unit -> Js C) s :
  completes m -> bind m k s = k tt (exec m s).
Proof.
  intros Hm. unfold bind, exec. destruct (Hm s) as [[] Ha].
  destruct (m s) as [[[]|] s']; simpl in *; [reflexivity | discriminate].
Qed.

Lemma run_completes (m : Js unit) s : completes m -> m s = (Normal tt, exec m s).
Proof.
  intros Hm. unfold exec. destruct (Hm s) as [[] Ha].
  destruct (m s) as [[[]|] s']; simpl in *; [reflexivity | discriminate].
Qed.
End Completion.

Ltac head_of t := lazymatch t with ?g _ => head_of g | _ => t end.

(** Walks through a handler and closes the goal [preserves f m] when no
    write of [m] touches [f]. *)
Create HintDb frame.

Ltac frame :=
  repeat first
    [ progress intros
    | contradiction
    | solve [auto 2 with frame]
    | apply preserves_ret
    | apply preserves_throw
    | apply preserves_read
    | apply preserves_write; intros; reflexivity
    | apply preserves_bind
    | apply preserves_try_catch
    | apply preserves_forEach
    | match goal with
      | |- preserves _ (match ?x with _ => _ end) => destruct x
      end
    | match goal with
      | |- preserves _ ?m => let h := head_of m in unfold h
      end ].

(** Closes the goal [completes m] when [m] has no [throw] outside a [try]. *)
Ltac total :=
  repeat first
    [ progress intros
    | apply completes_ret
    | apply completes_read
    | apply completes_write
    | apply completes_bind
    | apply completes_try_catch
    | apply completes_forEach
    | match goal with
      | |- completes (match ?x with _ => _ end) => destruct x
      end
    | match goal with
      | |- completes ?m => let h := head_of m in unfold h
      end ].

Lemma try_catch_bind {A B} (m : Js A) (k : A -> Js B) (h : Js B) s a s1 :
  m s = (Normal a, s1) -> try_catch (bind m k) h s = try_catch (k a) h s1.
Proof. intros Hm. unfold try_catch, bind. rewrite Hm. reflexivity. Qed.

(** [cleanup], the cleanup of the effect, the End Session handler and the
    re-render never end by an exception. *)
Lemma cleanup_completes : completes cleanup.
Proof. total. Qed.

Lemma effect_cleanup_completes : completes effect_cleanup.
Proof. total. Qed.

Lemma endSession_completes : completes endSession.
Proof. total. Qed.

Lemma commit_completes r : completes (commit r).
Proof. total. Qed.

(** ** Turns in closed form *)

Lemma run_snoc s es e : run s (es ++ [e]) = step (run s es) e.
Proof. unfold run. rewrite foldl_app. reflexivity. Qed.

(** A property that holds initially and that every turn keeps holds after
    every sequence of events. *)
Lemma run_invariant (P : State -> Prop) :
  P init -> (forall s e, P s -> P (step s e)) -> forall es, P (run init es).
Proof.
  intros H0 Hstep es. induction es as [|e es IH] using rev_ind.
  - exact H0.
  - rewrite run_snoc. apply Hstep, IH.
Qed.

Lemma commit_same r s : role s = r -> commit r s = (Normal tt, s).
Proof.
  intros H. unfold commit, bind, read. simpl.
  destruct (decide (role s = r)); [reflexivity | contradiction].
Qed.

(** A handler that changes nothing makes a turn that changes nothing. *)
Lemma step_idle s e : exec (handler s e) s = s -> step s e = s.
Proof.
  intros H. unfold step. rewrite H. unfold exec. rewrite commit_same; reflexivity.
Qed.

Lemma effect_cleanup_role : preserves role effect_cleanup.
Proof. frame. Qed.

Lemma commit_changed r s :
  role s <> r ->
  exec (commit r) s =
  exec (effect (role s))
    (exec effect_cleanup
       (set_videoRefs (bool_decide (role s = HOST)) (negb (bool_decide (role s = HOST))) s)).
Proof.
  intros Hne. unfold exec at 1, commit, bind at 1, read. simpl.
  destruct (decide (role s = r)); [contradiction|].
  unfold bind at 1, write at 1. simpl.
  rewrite bind_completes by apply effect_cleanup_completes.
  rewrite run_completes by total. reflexivity.
Qed.

(** *** What [cleanup] leaves *)

Lemma forEach_stop tracks s :
  forEach tracks MediaStreamTrack_stop s =
  (Normal tt, set_stoppedTracks (reverse tracks ++ stoppedTracks s) s).
Proof.
  revert s. induction tracks as [|t ts IH]; intros s.
  - destruct s; reflexivity.
  - simpl forEach. unfold bind. unfold MediaStreamTrack_stop at 1, write. simpl fst. cbv iota beta.
    rewrite IH. simpl. rewrite reverse_cons, <- app_assoc. reflexivity.
Qed.

Lemma cleanup_spec s : cleanup s = (Normal tt, cleaned s).
Proof.
  unfold cleanup, cleaned. unfold bind at 1, read at 1. cbv iota beta.
  destruct (localStream s) as [tracks|] eqn:Hls.
  - unfold bind at 1. rewrite forEach_stop.
    destruct (peerConnection s) as [pc|] eqn:Hpc; unfold bind, read, write, setIsLive,
      RTCPeerConnection_close, update_connection, write; simpl; rewrite ?Hpc; reflexivity.
  - destruct (peerConnection s) as [pc|] eqn:Hpc; unfold bind, read, write, setIsLive,
      RTCPeerConnection_close, update_connection, write, ret; simpl; rewrite ?Hpc;
      destruct s; simpl in *; subst; reflexivity.
Qed.

Lemma effect_cleanup_spec s :
  effect_cleanup s =
  (Normal tt,
   cleaned (set_closedChannels
              (match bc s with
               | Some ch => channelId ch :: closedChannels s
               | None => closedChannels s
               end) s)).
Proof.
  unfold effect_cleanup. unfold bind at 1, read at 1. cbv iota beta.
  destruct (bc s) as [ch|]; unfold bind, BroadcastChannel_close, write, ret; cbv iota beta;
    rewrite cleanup_spec; [reflexivity|].
  destruct s; reflexivity.
Qed.

Lemma endSession_spec s : endSession s = (Normal tt, set_role IDLE (cleaned s)).
Proof. unfold endSession, bind. rewrite cleanup_spec. reflexivity. Qed.

Lemma commit_changed_spec r s :
  role s <> r ->
  exec (commit r) s =
  exec (effect (role s))
    (cleaned (set_closedChannels
                (match bc s with
                 | Some ch => channelId ch :: closedChannels s
                 | None => closedChannels s
                 end)
                (set_videoRefs (bool_decide (role s = HOST)) (negb (bool_decide (role s = HOST)))
                   s))).
Proof.
  intros Hne. rewrite commit_changed by assumption.
  unfold exec at 2. rewrite effect_cleanup_spec. reflexivity.
Qed.

Lemma on_connection_open s pc c h :
  connections s !! pc = Some c -> isClosed c = false -> on_connection pc h s = h c s.
Proof.
  intros Hc Hopen. unfold on_connection, bind, read. rewrite Hc, Hopen. reflexivity.
Qed.

Lemma postMessage_open s ch m :
  bc s = Some ch -> channelId ch ∉ closedChannels s ->
  postMessage m s = (Normal tt, set_posted (posted s ++ [(channelId ch, m)]) s).
Proof.
  intros Hbc Hopen. unfold postMessage, bind, read. rewrite Hbc.
  destruct (decide (channelId ch ∈ closedChannels s)); [contradiction | reflexivity].
Qed.

Lemma deliver_open s ch msg reply :
  bc s = Some ch -> channelId ch ∉ closedChannels s ->
  handler s (BusMessage msg reply) = onmessage (onmessage_role ch) msg reply.
Proof.
  intros Hbc Hopen. unfold handler. rewrite Hbc.
  destruct (decide (channelId ch ∈ closedChannels s)); [contradiction | reflexivity].
Qed.

Lemma user_media_denied s k captured createdOffer setLocalOk :
  pendingUserMedia s !! k = Some captured ->
  step s (UserMediaSettled k None createdOffer setLocalOk) =
  set_error (Some "Camera access failed. Check permissions.")
    (set_pendingUserMedia (delete k (pendingUserMedia s)) s).
Proof.
  intros Hk. unfold step, handler. rewrite Hk.
  unfold exec at 2. unfold bind, write, startHost_resume, try_catch. simpl.
  unfold exec. rewrite commit_same; reflexivity.
Qed.

Lemma start_streaming_step s :
  role s = IDLE ->
  step s ClickStartStreaming =
  exec (effect HOST)
    (cleaned (set_closedChannels
                (match bc s with
                 | Some ch => channelId ch :: closedChannels s
                 | None => closedChannels s
                 end)
                (set_videoRefs true false
                   (set_pendingUserMedia (pendingUserMedia s ++ [IDLE]) (set_role HOST s))))).
Proof.
  intros Hrole. unfold step, handler. unfold exec at 2.
  unfold startHost, bind, setRole, write. simpl snd.
  rewrite commit_changed_spec by (simpl; congruence). rewrite Hrole. reflexivity.
Qed.

Lemma endSession_step s :
  role s <> IDLE ->
  step s ClickEndSession =
  exec (effect IDLE)
    (cleaned (set_closedChannels
                (match bc s with
                 | Some ch => channelId ch :: closedChannels s
                 | None => closedChannels s
                 end)
                (set_videoRefs false true (set_role IDLE (cleaned s))))).
Proof.
  intros Hrole. unfold step, handler. unfold exec at 2. rewrite endSession_spec. simpl snd.
  rewrite commit_changed by (simpl; congruence).
  unfold exec at 2. rewrite effect_cleanup_spec. reflexivity.
Qed.

Lemma filter_alive_nil (l : list RTCPeerConnection) :
  (forall i c, l !! i = Some c -> isClosed c = true) ->
  List.filter (fun c => negb (isClosed c)) l = [].
Proof.
  induction l as [|c l IH]; intros H; [reflexivity|]. simpl.
  rewrite (H 0 c eq_refl). simpl. apply IH. intros i c' Hi. apply (H (S i) c' Hi).
Qed.

(** ** Sample runs *)

Example host_awaiting_answer_state :
  role host_awaiting_answer = HOST /\
  peerConnection host_awaiting_answer = Some 0 /\
  connections host_awaiting_answer =
    [ {| candidate_sender := IDLE; senders := [0; 1]; localDescription := Some 50;
         remoteDescription := None; iceCandidates := []; isClosed := false |} ] /\
  posted host_awaiting_answer = [(1, signal offer 50 HOST)] /\
  isLive host_awaiting_answer = true.
Proof. repeat split; reflexivity. Qed.

(** The connection [joinPeer] makes does not survive the re-render that
    follows: the effect of the old render is cleaned up, and [cleanup]
    closes the current connection. *)
Example join_session_state :
  let s := run init [ClickJoinSession] in
  role s = PEER /\ peerConnection s = None /\ alive_connections s = [] /\
  length (connections s) = 1.
Proof. repeat split; reflexivity. Qed.

(** ** Guards of the message handler *)

(** *** The subscription is the one of the current render *)

Lemma handler_bc s e : preserves bc (handler s e).
Proof. frame. Qed.

Lemma step_subscribed s e : subscribed s -> subscribed (step s e).
Proof.
  intros (ch & Hbc & Hrole). unfold step.
  pose proof (handler_bc s e s) as Hb. fold (exec (handler s e) s) in Hb.
  set (s1 := exec (handler s e) s) in *.
  destruct (decide (role s1 = role s)) as [Heq|Hne].
  - unfold exec at 1. rewrite commit_same by assumption. simpl.
    exists ch. split; congruence.
  - rewrite commit_changed by assumption.
    eexists. split; [reflexivity|]. simpl.
    rewrite (preserves_exec role effect_cleanup) by apply effect_cleanup_role.
    reflexivity.
Qed.

Lemma reachable_subscribed es : subscribed (run init es).
Proof.
  apply run_invariant.
  - eexists. split; reflexivity.
  - apply step_subscribed.
Qed.

Lemma onmessage_guard role_ msg reply s :
  (type msg = offer /\ role_ <> PEER) \/
  (type msg = answer /\ role_ <> HOST) \/
  (type msg = candidate /\ peerConnection s = None) ->
  onmessage role_ msg reply s = (Normal tt, s).
Proof.
  intros H. unfold onmessage.
  destruct (decide (role_ = IDLE)); [reflexivity|].
  unfold try_catch.
  destruct (decide (type msg = offer /\ role_ = PEER)) as [[Ht Hr]|_].
  { destruct H as [[_ H]|[[H _]|[H _]]]; congruence. }
  destruct (decide (type msg = answer /\ role_ = HOST)) as [[Ht Hr]|_].
  { destruct H as [[H _]|[[_ H]|[H _]]]; congruence. }
  destruct (decide (type msg = candidate)) as [Ht|_]; [|reflexivity].
  destruct H as [[H _]|[[H _]|[_ H]]]; try congruence.
  unfold bind, read. rewrite H. reflexivity.
Qed.

Lemma deliver_guard s msg reply :
  (forall ch, bc s = Some ch ->
     (type msg = offer /\ onmessage_role ch <> PEER) \/
     (type msg = answer /\ onmessage_role ch <> HOST) \/
     (type msg = candidate /\ peerConnection s = None)) ->
  step s (BusMessage msg reply) = s.
Proof.
  intros H. apply step_idle. unfold handler, exec.
  destruct (bc s) as [ch|]; [|reflexivity].
  destruct (decide (channelId ch ∈ closedChannels s)); [reflexivity|].
  rewrite onmessage_guard; [reflexivity | apply H; reflexivity].
Qed.

(** C3. Guard rule of the message handler.  In every state the component
    reaches, a message that fails its guard changes nothing at all: an offer
    when the role is not PEER, an answer when the role is not HOST, a
    candidate when no connection exists.  So an offer is processed only by a
    PEER, an answer only by a HOST, a candidate only with a connection, and a
    HOST that receives an offer (a PEER that receives an answer) stays in the
    state it was in. *)
Theorem guard_rule (es : list Event) (msg : SignalingMessage) (reply : TransportReply) :
  let s := run init es in
  (type msg = offer -> role s <> PEER -> step s (BusMessage msg reply) = s) /\
  (type msg = answer -> role s <> HOST -> step s (BusMessage msg reply) = s) /\
  (type msg = candidate -> peerConnection s = None -> step s (BusMessage msg reply) = s).
Proof.
  intros s. destruct (reachable_subscribed es) as (ch & Hbc & Hrole). fold s in Hbc, Hrole.
  repeat split; intros Ht Hg; apply deliver_guard; intros ch' Hch';
    assert (ch' = ch) as -> by congruence; rewrite Hrole; auto.
Qed.

Lemma guard_rule_witness :
  step host_awaiting_answer (BusMessage (signal offer 50 HOST) accepting) =
  host_awaiting_answer.
Proof.
  destruct (guard_rule start_streaming (signal offer 50 HOST) accepting) as [H _].
  apply H; [reflexivity | discriminate].
Defined.

(** ** Handlers without a connection *)

(** C10. With no connection object, [handleOffer] and [handleAnswer] return
    at once: no description is applied, nothing is posted, the state is the
    one before; so does the message handler for an offer that passed the
    PEER guard and for an answer that passed the HOST guard. *)
Theorem handlers_without_connection (s : State) (sdp : Payload) (reply : TransportReply) :
  peerConnection s = None ->
  handleOffer sdp reply s = (Normal tt, s) /\
  handleAnswer sdp reply s = (Normal tt, s) /\
  (forall msg, type msg = offer -> onmessage PEER msg reply s = (Normal tt, s)) /\
  (forall msg, type msg = answer -> onmessage HOST msg reply s = (Normal tt, s)).
Proof.
  intros Hpc.
  assert (handleOffer sdp reply s = (Normal tt, s)) as HO.
  { unfold handleOffer, bind, read. rewrite Hpc. reflexivity. }
  assert (handleAnswer sdp reply s = (Normal tt, s)) as HA.
  { unfold handleAnswer, bind, read. rewrite Hpc. reflexivity. }
  repeat split; try assumption.
  - intros msg Ht. unfold onmessage, try_catch. simpl.
    destruct (decide (type msg = offer /\ PEER = PEER)) as [_|n]; [|tauto].
    unfold handleOffer, bind, read. rewrite Hpc. reflexivity.
  - intros msg Ht. unfold onmessage, try_catch. simpl.
    destruct (decide (type msg = offer /\ HOST = PEER)) as [[_ ?]|_]; [discriminate|].
    destruct (decide (type msg = answer /\ HOST = HOST)) as [_|n]; [|tauto].
    unfold handleAnswer, bind, read. rewrite Hpc. reflexivity.
Qed.

Lemma handlers_without_connection_witness :
  handleOffer 50 accepting (run init [ClickJoinSession]) =
  (Normal tt, run init [ClickJoinSession]).
Proof.
  assert (peerConnection (run init [ClickJoinSession]) = None) as Hpc by reflexivity.
  destruct (handlers_without_connection (run init [ClickJoinSession]) 50 accepting Hpc)
    as [H _].
  exact H.
Defined.

(** ** Candidates *)

(** C1, as stated, fails.  A HOST that has posted its offer has a connection
    without remote description.  A candidate that arrives then is handed to
    the transport at once: when the transport takes it, it is applied before
    any remote description; when the transport refuses it, it is logged and
    lost, and the answer that arrives later replays nothing, so that the
    candidates differ from those of the run where they arrive after the
    answer. *)
Lemma candidate_not_buffered :
  (remoteDescription <$> connections host_awaiting_answer !! 0 = Some None) /\
  candidates_of (step host_awaiting_answer (BusMessage (signal candidate 7 PEER) accepting)) 0
    = Some [7] /\
  candidates_of
    (run host_awaiting_answer
       [BusMessage (signal candidate 7 PEER) refusing_candidates;
        BusMessage (signal candidate 8 PEER) refusing_candidates;
        BusMessage (signal answer 60 PEER) accepting]) 0
    = Some [] /\
  candidates_of
    (run host_awaiting_answer
       [BusMessage (signal answer 60 PEER) accepting;
        BusMessage (signal candidate 7 PEER) accepting;
        BusMessage (signal candidate 8 PEER) accepting]) 0
    = Some [7; 8] /\
  candidates_of
    (run host_awaiting_answer
       [BusMessage (signal candidate 7 PEER) refusing_candidates;
        BusMessage (signal candidate 8 PEER) refusing_candidates;
        BusMessage (signal answer 60 PEER) accepting]) 0
  <> candidates_of
    (run host_awaiting_answer
       [BusMessage (signal answer 60 PEER) accepting;
        BusMessage (signal candidate 7 PEER) accepting;
        BusMessage (signal candidate 8 PEER) accepting]) 0.
Proof. repeat split; try reflexivity. vm_compute. discriminate. Qed.

Lemma onmessage_candidate role_ msg reply s pc :
  type msg = candidate -> role_ <> IDLE -> peerConnection s = Some pc ->
  onmessage role_ msg reply s =
  (Normal tt,
   if addIceCandidate_ok reply
   then set_connections (alter (add_candidate (payload msg)) pc (connections s)) s
   else set_console (console s ++ ["Signal Handling Error:"]) s).
Proof.
  intros Ht Hr Hpc. unfold onmessage.
  destruct (decide (role_ = IDLE)); [contradiction|].
  destruct (decide (type msg = offer /\ role_ = PEER)) as [[? _]|_]; [congruence|].
  destruct (decide (type msg = answer /\ role_ = HOST)) as [[? _]|_]; [congruence|].
  destruct (decide (type msg = candidate)); [|contradiction].
  unfold try_catch, bind, read. rewrite Hpc. unfold addIceCandidate.
  destruct (addIceCandidate_ok reply); reflexivity.
Qed.

Lemma update_keeps_candidates pc g :
  (forall c, iceCandidates (g c) = iceCandidates c) ->
  preserves candidates_view (update_connection pc g).
Proof.
  intros Hg s. unfold update_connection, write, candidates_view. simpl.
  rewrite (list_fmap_alter iceCandidates g id) by (apply Forall_forall; intros; apply Hg).
  apply list_alter_id. reflexivity.
Qed.

Lemma setRemoteDescription_keeps_candidates pc d ok :
  preserves candidates_view (setRemoteDescription pc d ok).
Proof.
  unfold setRemoteDescription. destruct ok; [|apply preserves_throw].
  apply update_keeps_candidates. reflexivity.
Qed.

Lemma setLocalDescription_keeps_candidates pc d ok :
  preserves candidates_view (setLocalDescription pc d ok).
Proof.
  unfold setLocalDescription. destruct ok; [|apply preserves_throw].
  apply update_keeps_candidates. reflexivity.
Qed.

#[local] Hint Resolve setRemoteDescription_keeps_candidates
  setLocalDescription_keeps_candidates : frame.

Lemma onmessage_keeps_candidates role_ msg reply :
  type msg <> candidate -> preserves candidates_view (onmessage role_ msg reply).
Proof. intros Ht. frame. Qed.

(** C1, amended.  A candidate that arrives while the handler's role is not
    IDLE and a connection exists is handed to that connection at once,
    whether or not its remote description is set: taken by the transport,
    it is appended after the candidates applied before; refused, it is
    logged and lost.  A candidate that arrives when no connection exists,
    or while the handler's role is IDLE, is dropped.  Nothing is kept for
    later: a message that is not a candidate (an offer or an answer, which
    sets the remote description) leaves the candidates of every connection
    as they are. *)
Theorem candidates_applied_at_once
    (role_ : AppRole) (msg : SignalingMessage) (reply : TransportReply) (s : State) :
  (type msg = candidate -> role_ <> IDLE ->
   forall pc, peerConnection s = Some pc ->
   onmessage role_ msg reply s =
   (Normal tt,
    if addIceCandidate_ok reply
    then set_connections (alter (add_candidate (payload msg)) pc (connections s)) s
    else set_console (console s ++ ["Signal Handling Error:"]) s)) /\
  (type msg = candidate -> peerConnection s = None ->
   onmessage role_ msg reply s = (Normal tt, s)) /\
  onmessage IDLE msg reply s = (Normal tt, s) /\
  (type msg <> candidate ->
   forall pc, candidates_of (exec (onmessage role_ msg reply) s) pc = candidates_of s pc).
Proof.
  split; [|split; [|split]].
  - intros Ht Hr pc Hpc. apply onmessage_candidate; assumption.
  - intros Ht Hpc. apply onmessage_guard. auto.
  - reflexivity.
  - intros Ht pc. unfold candidates_of. rewrite <- !list_lookup_fmap.
    change (candidates_view (exec (onmessage role_ msg reply) s) !! pc = candidates_view s !! pc).
    rewrite (preserves_exec candidates_view) by (apply onmessage_keeps_candidates, Ht).
    reflexivity.
Qed.

Lemma candidates_applied_at_once_witness :
  onmessage HOST (signal candidate 7 PEER) accepting host_awaiting_answer =
  (Normal tt,
   set_connections
     (alter (add_candidate 7) 0 (connections host_awaiting_answer)) host_awaiting_answer).
Proof.
  destruct (candidates_applied_at_once HOST (signal candidate 7 PEER) accepting
              host_awaiting_answer) as [H _].
  apply (H eq_refl); [discriminate | reflexivity].
Defined.

(** ** Local media attached to the connection *)

Lemma update_keeps_senders pc g :
  (forall c, senders (g c) = senders c) ->
  preserves media_view (update_connection pc g).
Proof.
  intros Hg s. unfold update_connection, write, media_view. simpl.
  rewrite (list_fmap_alter senders g id) by (apply Forall_forall; intros; apply Hg).
  rewrite list_alter_id by reflexivity. reflexivity.
Qed.

Lemma setRemoteDescription_keeps_senders pc d ok :
  preserves media_view (setRemoteDescription pc d ok).
Proof.
  unfold setRemoteDescription. destruct ok; [|apply preserves_throw].
  apply update_keeps_senders. reflexivity.
Qed.

Lemma setLocalDescription_keeps_senders pc d ok :
  preserves media_view (setLocalDescription pc d ok).
Proof.
  unfold setLocalDescription. destruct ok; [|apply preserves_throw].
  apply update_keeps_senders. reflexivity.
Qed.

Lemma addIceCandidate_keeps_senders pc c ok :
  preserves media_view (addIceCandidate pc c ok).
Proof.
  unfold addIceCandidate. destruct ok; [|apply preserves_throw].
  apply update_keeps_senders. reflexivity.
Qed.

#[local] Hint Resolve setRemoteDescription_keeps_senders
  setLocalDescription_keeps_senders addIceCandidate_keeps_senders : frame.

(** [stream.getTracks().forEach(track => pc.addTrack(track, stream))] adds
    the tracks of the stream, in order. *)
Lemma forEach_addTrack tracks pc s :
  forEach tracks (addTrack pc) s =
  (Normal tt,
   set_connections
     (alter (fun c => with_senders (senders c ++ tracks) c) pc (connections s)) s).
Proof.
  revert s. induction tracks as [|t ts IH]; intros s.
  - simpl. unfold ret. f_equal.
    rewrite list_alter_id; [destruct s; reflexivity|].
    intros c. rewrite app_nil_r. destruct c; reflexivity.
  - simpl forEach. unfold bind. unfold addTrack at 1, update_connection, write. cbv iota beta.
    rewrite IH. f_equal.
    transitivity
      (set_connections
         (alter (fun c => with_senders (senders c ++ ts) c) pc
            (alter (fun c => with_senders (senders c ++ [t]) c) pc (connections s))) s);
      [reflexivity|].
    f_equal. rewrite list_alter_alter_eq. apply list_alter_ext; [|reflexivity].
    intros c _. unfold with_senders. simpl. rewrite <- app_assoc. reflexivity.
Qed.

Lemma no_current_attached added stream : attached_ok (added, None, stream).
Proof. intros pc ts t Hpc. discriminate. Qed.

Lemma commit_attached r s : attached_inv s -> attached_inv (exec (commit r) s).
Proof.
  intros Hinv. destruct (decide (role s = r)) as [Heq|Hne].
  - unfold exec. rewrite commit_same by assumption. exact Hinv.
  - rewrite commit_changed_spec by assumption. apply no_current_attached.
Qed.

Lemma handler_attached s e : attached_inv s -> attached_inv (exec (handler s e) s).
Proof.
  intros Hinv.
  destruct e;
    try (unfold attached_inv;
         rewrite (preserves_exec media_view) by frame; exact Hinv).
  - (* Join Session: the new connection has no track *)
    unfold attached_inv, media_view, handler, exec, joinPeer, createPeerConnection,
      bind, setRole, write, read, ret. simpl.
    intros pc ts t Hpc Hts Ht. injection Hpc as <-.
    rewrite fmap_app, lookup_app_r, length_fmap, Nat.sub_diag in Hts
      by (rewrite length_fmap; lia).
    injection Hts as <-. inversion Ht.
  - (* End Session *)
    unfold handler, exec. rewrite endSession_spec. apply no_current_attached.
  - (* getUserMedia settled: the new connection gets the tracks of the new stream *)
    unfold handler. destruct (pendingUserMedia s !! k) as [captured|]; [|exact Hinv].
    unfold exec, bind. unfold write at 1. cbv iota beta.
    destruct media as [n|].
    + unfold startHost_resume.
      erewrite try_catch_bind by reflexivity.
      erewrite try_catch_bind by reflexivity.
      erewrite try_catch_bind by reflexivity.
      cbn [localVideoRef set_localStream set_trackCount set_pendingUserMedia].
      destruct (localVideoRef s).
      all: erewrite try_catch_bind by reflexivity.
      all: erewrite try_catch_bind by reflexivity.
      all: erewrite try_catch_bind by apply forEach_addTrack.
      all: match goal with
           | |- attached_inv (snd (?m ?s1)) =>
               change (attached_ok (media_view (exec m s1)));
               rewrite (preserves_exec media_view) by frame
           end.
      all: unfold media_view; simpl.
      all: intros pc ts t Hpc Hts Ht; injection Hpc as <-.
      all: rewrite list_lookup_fmap, list_lookup_alter_eq, lookup_app_r, Nat.sub_diag in Hts
             by lia.
      all: simpl in Hts; injection Hts as <-; eauto.
    + match goal with
      | |- attached_inv (snd (?m ?s1)) =>
          change (attached_ok (media_view (exec m s1)));
          rewrite (preserves_exec media_view) by (unfold startHost_resume, getUserMedia; frame)
      end.
      exact Hinv.
Qed.

(** In every state the component reaches, the tracks added to the current
    connection are the tracks of [localStream.current]. *)
Lemma reachable_attached es : attached_inv (run init es).
Proof.
  apply run_invariant.
  - apply no_current_attached.
  - intros s e Hinv. unfold step. apply commit_attached, handler_attached, Hinv.
Qed.

(** ** The end of a session *)





(** ** One connection at a time *)

Lemma update_keeps_closed pc g :
  (forall c, isClosed (g c) = isClosed c) ->
  preserves closed_view (update_connection pc g).
Proof.
  intros Hg s. unfold update_connection, write, closed_view. simpl.
  rewrite (list_fmap_alter isClosed g id) by (apply Forall_forall; intros; apply Hg).
  rewrite list_alter_id by reflexivity. reflexivity.
Qed.

Lemma addTrack_keeps_closed pc t : preserves closed_view (addTrack pc t).
Proof. apply update_keeps_closed. reflexivity. Qed.

Lemma setRemoteDescription_keeps_closed pc d ok :
  preserves closed_view (setRemoteDescription pc d ok).
Proof.
  unfold setRemoteDescription. destruct ok; [|apply preserves_throw].
  apply update_keeps_closed. reflexivity.
Qed.

Lemma setLocalDescription_keeps_closed pc d ok :
  preserves closed_view (setLocalDescription pc d ok).
Proof.
  unfold setLocalDescription. destruct ok; [|apply preserves_throw].
  apply update_keeps_closed. reflexivity.
Qed.

Lemma addIceCandidate_keeps_closed pc c ok :
  preserves closed_view (addIceCandidate pc c ok).
Proof.
  unfold addIceCandidate. destruct ok; [|apply preserves_throw].
  apply update_keeps_closed. reflexivity.
Qed.

#[local] Hint Resolve addTrack_keeps_closed setRemoteDescription_keeps_closed
  setLocalDescription_keeps_closed addIceCandidate_keeps_closed : frame.

Lemma closed_after_close (conns : list RTCPeerConnection) (cur : option nat) i :
  (forall j, (isClosed <$> conns) !! j = Some false -> cur = Some j) ->
  (isClosed <$> match cur with
                | Some pc => alter (with_isClosed true) pc conns
                | None => conns
                end) !! i = Some false -> False.
Proof.
  intros Hone Hi. destruct cur as [pc|].
  - destruct (decide (i = pc)) as [->|Hne].
    + rewrite list_lookup_fmap, list_lookup_alter_eq in Hi.
      destruct (conns !! pc); simpl in Hi; discriminate.
    + rewrite list_lookup_fmap, list_lookup_alter_ne in Hi by congruence.
      rewrite <- list_lookup_fmap in Hi. specialize (Hone i Hi). congruence.
  - specialize (Hone i Hi). discriminate.
Qed.

Lemma commit_session_inv r s : session_inv s -> session_inv (exec (commit r) s).
Proof.
  intros Hinv. destruct (decide (role s = r)) as [Heq|Hne].
  - unfold exec. rewrite commit_same by assumption. exact Hinv.
  - rewrite commit_changed_spec by assumption.
    destruct Hinv as (Hone & Hidle & Hpend & Hlen).
    unfold session_inv, closed_view, exec. simpl. split; [|split; [|split]].
    + intros i Hi. exfalso. exact (closed_after_close _ _ _ Hone Hi).
    + reflexivity.
    + intros Hp. split; [apply Hpend, Hp | reflexivity].
    + exact Hlen.
Qed.

Lemma new_connection_ok (closed : list bool) (cur : option nat) r :
  (forall j, closed !! j = Some false -> cur = Some j) ->
  cur = None -> r <> IDLE ->
  session_ok (closed ++ [false], Some (length closed), r, []).
Proof.
  intros Hone Hcur Hr. split; [|split; [|split]].
  - intros i Hi. destruct (decide (i < length closed)) as [Hlt|Hge].
    + rewrite lookup_app_l in Hi by assumption. specialize (Hone i Hi). congruence.
    + rewrite lookup_app_r in Hi by lia.
      destruct (i - length closed) as [|d] eqn:Hd; [|destruct d; discriminate].
      f_equal. lia.
  - intros Hidle. contradiction.
  - intros H. contradiction.
  - simpl. lia.
Qed.

Lemma handler_session_inv s e :
  session_inv s -> offered s e = true -> patient s e = true ->
  session_inv (exec (handler s e) s).
Proof.
  intros Hinv Hoff Hpat.
  destruct e;
    try (unfold session_inv;
         rewrite (preserves_exec closed_view) by frame; exact Hinv).
  - (* Start Streaming *)
    apply bool_decide_eq_true in Hoff. apply bool_decide_eq_true in Hpat.
    destruct Hinv as (Hone & Hidle & Hpend & Hlen).
    unfold session_inv, closed_view, handler, exec, startHost, bind, setRole, write. simpl.
    split; [|split; [|split]].
    + exact Hone.
    + intros H. discriminate.
    + intros _. split; [discriminate | auto].
    + rewrite Hpat. simpl. lia.
  - (* Join Session *)
    apply bool_decide_eq_true in Hoff. apply bool_decide_eq_true in Hpat.
    destruct Hinv as (Hone & Hidle & Hpend & Hlen).
    unfold session_inv, closed_view, handler, exec, joinPeer, createPeerConnection,
      bind, setRole, write, read, ret. simpl.
    rewrite fmap_app, Hpat. simpl. rewrite <- (length_fmap isClosed).
    apply (new_connection_ok _ (peerConnection s)); auto.
  - (* End Session *)
    apply bool_decide_eq_true in Hpat.
    destruct Hinv as (Hone & Hidle & Hpend & Hlen).
    unfold handler, exec. rewrite endSession_spec.
    unfold session_inv, closed_view. simpl. split; [|split; [|split]].
    + intros i Hi. exfalso. exact (closed_after_close _ _ _ Hone Hi).
    + reflexivity.
    + rewrite Hpat. intros H. contradiction.
    + exact Hlen.
  - (* getUserMedia settled *)
    unfold handler. destruct (pendingUserMedia s !! k) as [captured|] eqn:Hk; [|exact Hinv].
    destruct Hinv as (Hone & Hidle & Hpend & Hlen).
    assert (pendingUserMedia s <> []) as Hne by (intros H; rewrite H in Hk; discriminate).
    destruct (Hpend Hne) as [Hrole Hcur].
    assert (delete k (pendingUserMedia s) = []) as Hdel.
    { destruct (pendingUserMedia s) as [|x [|y l]]; simpl in *; try lia; try discriminate.
      destruct k; [reflexivity | destruct k; discriminate]. }
    unfold exec, bind. unfold write at 1. cbv iota beta. rewrite Hdel.
    destruct media as [n|].
    + unfold startHost_resume.
      erewrite try_catch_bind by reflexivity.
      erewrite try_catch_bind by reflexivity.
      erewrite try_catch_bind by reflexivity.
      cbn [localVideoRef set_localStream set_trackCount set_pendingUserMedia].
      destruct (localVideoRef s).
      all: erewrite try_catch_bind by reflexivity.
      all: erewrite try_catch_bind by reflexivity.
      all: match goal with
           | |- session_inv (snd (?m ?s1)) =>
               change (session_ok (closed_view (exec m s1)));
               rewrite (preserves_exec closed_view) by frame
           end.
      all: unfold closed_view; simpl; rewrite fmap_app; simpl;
        rewrite <- (length_fmap isClosed);
        apply (new_connection_ok _ (peerConnection s)); auto.
    + unfold session_inv, closed_view, startHost_resume, try_catch, setError, write. simpl.
      split; [|split; [|split]]; auto.
Qed.

Lemma alive_le_one (conns : list RTCPeerConnection) :
  (forall i j, (isClosed <$> conns) !! i = Some false ->
               (isClosed <$> conns) !! j = Some false -> i = j) ->
  length (List.filter (fun c => negb (isClosed c)) conns) <= 1.
Proof.
  induction conns as [|c conns IH]; intros Huniq; simpl; [lia|].
  destruct (isClosed c) eqn:Hc; simpl.
  - apply IH. intros i j Hi Hj.
    specialize (Huniq (S i) (S j) Hi Hj). lia.
  - rewrite filter_alive_nil; [simpl; lia|].
    intros i c' Hi. destruct (isClosed c') eqn:Hc'; [reflexivity|].
    assert (0 = S i) as Habs; [|discriminate Habs].
    apply Huniq; [simpl; rewrite Hc; reflexivity|].
    simpl. rewrite list_lookup_fmap, Hi. simpl. rewrite Hc'. reflexivity.
Qed.

Lemma session_inv_alive s : session_inv s -> length (alive_connections s) <= 1.
Proof.
  intros (Hone & _). apply alive_le_one. intros i j Hi Hj.
  pose proof (Hone i Hi) as Hi'. pose proof (Hone j Hj) as Hj'. congruence.
Qed.

Lemma run_session_inv es : forall s,
  session_inv s -> admissible s es = true -> session_inv (run s es).
Proof.
  induction es as [|e es IH]; intros s Hinv Hadm; [exact Hinv|].
  simpl in Hadm. apply andb_prop in Hadm as [Hadm Hrest].
  apply andb_prop in Hadm as [Hoff Hpat].
  change (run s (e :: es)) with (run (step s e) es).
  apply IH; [|exact Hrest].
  unfold step. apply commit_session_inv, handler_session_inv; assumption.
Qed.

Lemma init_session_inv : session_inv init.
Proof.
  split; [|split; [|split]].
  - intros i Hi. destruct i; discriminate.
  - reflexivity.
  - intros H. contradiction.
  - simpl. lia.
Qed.

(** C2, as stated, fails: [startHost] and [joinPeer] test nothing.  Called
    on a host that has a live connection, [joinPeer] makes a second one next
    to it, and the turn changes the state; [startHost] called again ends
    with two connections alive.  The page does not offer either button
    there. *)
Lemma second_connection_created :
  offered host_awaiting_answer ClickJoinSession = false /\
  offered host_awaiting_answer ClickStartStreaming = false /\
  length (alive_connections host_awaiting_answer) = 1 /\
  length (alive_connections
            (exec (joinPeer (role host_awaiting_answer)) host_awaiting_answer)) = 2 /\
  step host_awaiting_answer ClickJoinSession <> host_awaiting_answer /\
  length (alive_connections
            (run host_awaiting_answer
               [ClickStartStreaming; UserMediaSettled 0 (Some 2) (Some 51) true])) = 2.
Proof.
  repeat split; try (vm_compute; reflexivity).
  intros H. apply (f_equal role) in H. vm_compute in H. discriminate.
Qed.

(** The page alone does not exclude two live connections: a user who ends
    the session and starts again while the first camera prompt is still open
    gets one connection from each request. *)
Example impatient_user_two_connections :
  let es := [ClickStartStreaming; ClickEndSession; ClickStartStreaming;
             UserMediaSettled 0 (Some 2) (Some 50) true;
             UserMediaSettled 0 (Some 2) (Some 51) true] in
  all_offered init es = true /\
  admissible init es = false /\
  length (alive_connections (run init es)) = 2.
Proof. repeat split; vm_compute; reflexivity. Qed.

(** C2, amended.  The guard is in the page, not in the functions: Start
    Streaming and Join Session are offered only while the role is IDLE, End
    Session only while it is not.  In every run in which each click is on an
    offered button and none is made while a camera request is open, at most
    one connection is alive after every turn, and also between the handler
    of the next such event and the re-render that follows it. *)
Theorem one_connection_under_ui (es : list Event) :
  admissible init es = true ->
  let s := run init es in
  length (alive_connections s) <= 1 /\
  (forall e, offered s e = true -> patient s e = true ->
     length (alive_connections (exec (handler s e) s)) <= 1).
Proof.
  intros Hadm s.
  assert (session_inv s) as Hinv by (apply run_session_inv; [apply init_session_inv | exact Hadm]).
  split.
  - apply session_inv_alive, Hinv.
  - intros e Hoff Hpat. apply session_inv_alive, handler_session_inv; assumption.
Qed.

Lemma one_connection_under_ui_witness :
  length (alive_connections
            (run init [ClickStartStreaming; UserMediaSettled 0 (Some 2) (Some 50) true;
                       ClickEndSession; ClickJoinSession])) <= 1.
Proof.
  destruct (one_connection_under_ui
              [ClickStartStreaming; UserMediaSettled 0 (Some 2) (Some 50) true;
               ClickEndSession; ClickJoinSession]) as [H _].
  - vm_compute. reflexivity.
  - exact H.
Defined.

(** ** Lifecycle tracker *)

(** C5, as stated, fails: the component publishes no [failed] flag.  What
    [VideoControls] is given after the transport reported [failed] is what it
    is given while the host still waits for its camera, where nothing has
    failed; no function of the published props tells the two apart. *)
Lemma no_failed_flag :
  render_VideoControls (run host_awaiting_answer [ConnectionStateChangeEvent 0 cs_failed]) =
  render_VideoControls (run init [ClickStartStreaming]) /\
  ~ exists failed : VideoControlsProps -> bool,
      failed (render_VideoControls (run init [ClickStartStreaming])) = false /\
      failed (render_VideoControls
                (run host_awaiting_answer [ConnectionStateChangeEvent 0 cs_failed])) = true.
Proof.
  split; [vm_compute; reflexivity|].
  intros (failed & Hwait & Hfail).
  change (failed {| props_isAnalyzing := false; props_isLive := false;
                    props_role := "HOST" |} = false) in Hwait.
  change (failed {| props_isAnalyzing := false; props_isLive := false;
                    props_role := "HOST" |} = true) in Hfail.
  congruence.
Qed.

(** C5, amended.  The tracker keeps one boolean, [isLive].  A report of the
    transport on an open connection sets it to true for [connected], to
    false for [disconnected] and [failed], and leaves it for every other
    state; nothing else changes.  A remote track that arrives while the
    remote video element is mounted sets it to true.  [VideoControls] is
    rendered with the role, [isLive] and [isAnalyzing]; a failure shows only
    as [isLive] being false. *)
Theorem lifecycle_tracker (s : State) (pc : nat) (c : RTCPeerConnection)
    (connectionState : RTCPeerConnectionState) :
  connections s !! pc = Some c -> isClosed c = false ->
  step s (ConnectionStateChangeEvent pc connectionState) =
    match connectionState with
    | cs_connected => set_isLive true s
    | cs_disconnected | cs_failed => set_isLive false s
    | _ => s
    end /\
  render_VideoControls (step s (ConnectionStateChangeEvent pc connectionState)) =
    {| props_isAnalyzing := isAnalyzing s;
       props_isLive := tracked connectionState (isLive s);
       props_role := AppRole_value (role s) |} /\
  (remoteVideoRef s = true ->
   step s (TrackEvent pc) = set_isLive true (set_srcObject (Some (RemoteMedia pc)) s)) /\
  (remoteVideoRef s = false -> step s (TrackEvent pc) = s).
Proof.
  intros Hc Hopen.
  assert (step s (ConnectionStateChangeEvent pc connectionState) =
          match connectionState with
          | cs_connected => set_isLive true s
          | cs_disconnected | cs_failed => set_isLive false s
          | _ => s
          end) as Hstep.
  { unfold step, handler. unfold exec at 2. rewrite (on_connection_open s pc c) by assumption.
    unfold exec. destruct connectionState; simpl; rewrite commit_same; reflexivity. }
  split; [exact Hstep|]. split.
  - rewrite Hstep. destruct connectionState; reflexivity.
  - split; intros Hremote; unfold step, handler; unfold exec at 2;
      rewrite (on_connection_open s pc c) by assumption;
      unfold ontrack, bind, read; rewrite Hremote; simpl;
      unfold exec; rewrite commit_same; reflexivity.
Qed.

Lemma lifecycle_tracker_witness :
  step host_awaiting_answer (ConnectionStateChangeEvent 0 cs_failed) =
  set_isLive false host_awaiting_answer.
Proof.
  destruct (lifecycle_tracker host_awaiting_answer 0
              {| candidate_sender := IDLE; senders := [0; 1]; localDescription := Some 50;
                 remoteDescription := None; iceCandidates := []; isClosed := false |}
              cs_failed) as [H _]; [reflexivity | reflexivity | exact H].
Defined.

(** ** Camera refused *)

(** C6, as stated, fails on its last part: after Start Streaming with the
    camera refused the role is HOST, not IDLE, and the session has a role
    with no connection behind it. *)
Lemma camera_denied_role_stays :
  role camera_denied = HOST /\
  partially_initialized camera_denied /\
  ~ (idle_equivalent camera_denied \/ ~ partially_initialized camera_denied).
Proof.
  assert (partially_initialized camera_denied) as Hpartial
    by (split; [discriminate | reflexivity]).
  split; [reflexivity|]. split; [exact Hpartial|].
  intros [(Hrole & _)|Hnot].
  - discriminate Hrole.
  - exact (Hnot Hpartial).
Qed.

(** C6, amended.  Start Streaming clicked while idle, then the camera
    refused: the error message is shown, no connection is made (none is
    current, the list of connections has the length it had), no stream is
    recorded, nothing is posted, [isLive] is false; the role stays HOST. *)
Theorem camera_denied_keeps_role (s : State) (createdOffer : option Payload) (setLocalOk : bool) :
  role s = IDLE ->
  let s1 := step s ClickStartStreaming in
  let s2 := step s1 (UserMediaSettled (length (pendingUserMedia s)) None createdOffer setLocalOk) in
  error s2 = Some "Camera access failed. Check permissions." /\
  role s2 = HOST /\
  peerConnection s2 = None /\
  length (connections s2) = length (connections s) /\
  localStream s2 = localStream s /\
  posted s2 = posted s /\
  isLive s2 = false /\
  pendingUserMedia s2 = pendingUserMedia s.
Proof.
  intros Hrole s1 s2.
  assert (pendingUserMedia s1 = pendingUserMedia s ++ [IDLE]) as Hp.
  { unfold s1. rewrite start_streaming_step by assumption. reflexivity. }
  assert (s2 = set_error (Some "Camera access failed. Check permissions.")
                 (set_pendingUserMedia (pendingUserMedia s) s1)) as ->.
  { unfold s2. rewrite (user_media_denied _ _ IDLE).
    - rewrite Hp. rewrite (delete_middle _ []), app_nil_r. reflexivity.
    - rewrite Hp. apply list_lookup_middle. reflexivity. }
  unfold s1. rewrite start_streaming_step by assumption. unfold exec. simpl.
  repeat split; try reflexivity.
  destruct (peerConnection s); [apply length_alter | reflexivity].
Qed.

Lemma camera_denied_keeps_role_witness :
  role camera_denied = HOST /\ peerConnection camera_denied = None /\
  error camera_denied = Some "Camera access failed. Check permissions.".
Proof.
  destruct (camera_denied_keeps_role init None false eq_refl)
    as (He & Hr & Hpc & _).
  exact (conj Hr (conj Hpc He)).
Defined.

(** ** The analysis trigger *)

Lemma commit_analysis r : preserves analysis_view (commit r).
Proof. frame. Qed.

Lemma analysis_inv_view s s' : analysis_view s' = analysis_view s -> analysis_inv s -> analysis_inv s'.
Proof.
  unfold analysis_view, analysis_inv. intros H. injection H as -> ->. auto.
Qed.

Lemma runAnalysis_inv s ctx frame :
  analysis_inv s -> analysis_inv (exec (runAnalysis (role s) (isAnalyzing s) ctx frame) s).
Proof.
  intros Hinv. unfold runAnalysis.
  destruct (isAnalyzing s) eqn:Han; [exact Hinv|].
  assert (pendingAnalyses s = []) as Hnil.
  { unfold analysis_inv in Hinv. destruct (pendingAnalyses s) as [|t [|]]; [reflexivity| |contradiction].
    congruence. }
  unfold analysis_inv, exec, bind, setIsAnalyzing, setError, write. simpl.
  destruct (decide (role s = HOST)); unfold read; simpl.
  - destruct (localVideoRef s); simpl; [|rewrite Hnil; exact I].
    destruct ctx; simpl; [|rewrite Hnil; exact I].
    destruct frame; simpl; rewrite Hnil; [reflexivity | exact I].
  - destruct (remoteVideoRef s); simpl; [|rewrite Hnil; exact I].
    destruct ctx; simpl; [|rewrite Hnil; exact I].
    destruct frame; simpl; rewrite Hnil; [reflexivity | exact I].
Qed.

Lemma only_task s k t :
  analysis_inv s -> pendingAnalyses s !! k = Some t ->
  pendingAnalyses s = [t] /\ k = 0 /\ isAnalyzing s = true.
Proof.
  unfold analysis_inv. intros Hinv Hk.
  destruct (pendingAnalyses s) as [|t0 [|]]; [discriminate| |contradiction].
  destruct k as [|k]; simpl in Hk; [|destruct k; discriminate].
  injection Hk as ->. auto.
Qed.

Lemma step_analysis_inv s e : analysis_inv s -> analysis_inv (step s e).
Proof.
  intros Hinv. unfold step.
  apply (analysis_inv_view (exec (handler s e) s)); [apply commit_analysis|].
  destruct e;
    try (apply (analysis_inv_view s); [|exact Hinv];
         apply (preserves_exec analysis_view); frame; fail).
  - apply runAnalysis_inv, Hinv.
  - unfold handler. destruct (pendingAnalyses s !! k) as [[frames|frames]|] eqn:Hk; try exact Hinv.
    destruct (only_task s k _ Hinv Hk) as (Hp & -> & Han).
    unfold analysis_inv, exec, bind, write, runAnalysis_timer, runAnalysis_try, try_catch. simpl.
    rewrite Hp. simpl.
    destruct (decide (length frames < 3)); simpl; [|exact Han].
    destruct frame; simpl; [exact Han | exact I].
  - unfold handler. destruct (pendingAnalyses s !! k) as [[frames|frames]|] eqn:Hk; try exact Hinv.
    destruct (only_task s k _ Hinv Hk) as (Hp & -> & Han).
    unfold analysis_inv, exec, bind, write, runAnalysis_result, runAnalysis_try, try_catch. simpl.
    rewrite Hp. simpl. destruct result; simpl; exact I.
Qed.

Lemma reachable_analysis_inv es : analysis_inv (run init es).
Proof. apply run_invariant; [exact I | apply step_analysis_inv]. Qed.

(** C8. After every sequence of events at most one call of
    [analyzeVideoFrames] is in flight, and at most one invocation of
    [runAnalysis] is outstanding at all; a call of [runAnalysis] made while
    one is outstanding returns at once: it invokes nothing and changes
    nothing. *)
Theorem analysis_at_most_once (es : list Event) :
  let s := run init es in
  in_flight s <= 1 /\
  length (pendingAnalyses s) <= 1 /\
  (pendingAnalyses s <> [] ->
   forall ctx frame, step s (ClickAnalyze ctx frame) = s).
Proof.
  intros s. pose proof (reachable_analysis_inv es) as Hinv. fold s in Hinv.
  unfold analysis_inv in Hinv. unfold in_flight.
  destruct (pendingAnalyses s) as [|t [|]] eqn:Hp; [| |contradiction].
  - simpl. repeat split; try lia. intros H. contradiction.
  - repeat split.
    + simpl. destruct (is_InService t); simpl; lia.
    + simpl. lia.
    + intros _ ctx frame. apply step_idle. unfold handler, runAnalysis. rewrite Hinv. reflexivity.
Qed.

(** C9. When [analyzeVideoFrames] fails, the error message is shown, the
    analysis is over ([isAnalyzing] false, the invocation gone, no new one
    started), and the negotiation is untouched: role, connection, live flag,
    channel, posted messages and history are the ones before. *)
Theorem analysis_failure_frame (s : State) (k : nat) (frames : list string) :
  pendingAnalyses s !! k = Some (InService frames) ->
  let s' := step s (AnalysisSettled k None) in
  error s' = Some "AI analysis failed. Please ensure your API_KEY is valid and try again." /\
  isAnalyzing s' = false /\
  pendingAnalyses s' = delete k (pendingAnalyses s) /\
  role s' = role s /\
  peerConnection s' = peerConnection s /\
  connections s' = connections s /\
  isLive s' = isLive s /\
  bc s' = bc s /\
  closedChannels s' = closedChannels s /\
  posted s' = posted s /\
  localStream s' = localStream s /\
  history s' = history s.
Proof.
  intros Hk s'.
  assert (s' = set_isAnalyzing false
                 (set_console (console s ++ ["AI analysis failed"])
                    (set_error
                       (Some "AI analysis failed. Please ensure your API_KEY is valid and try again.")
                       (set_pendingAnalyses (delete k (pendingAnalyses s)) s)))) as ->.
  { unfold s', step, handler. rewrite Hk.
    unfold exec at 2. unfold bind, write, runAnalysis_result, runAnalysis_try, try_catch. simpl.
    unfold exec. rewrite commit_same; reflexivity. }
  repeat split; reflexivity.
Qed.

Lemma analysis_at_most_once_witness :
  step (run init analysing) (ClickAnalyze true (Some "g0")) = run init analysing.
Proof.
  destruct (analysis_at_most_once analysing) as (_ & _ & H).
  apply H. vm_compute. discriminate.
Defined.

Lemma analysis_failure_frame_witness :
  error (step (run init analysing) (AnalysisSettled 0 None)) =
    Some "AI analysis failed. Please ensure your API_KEY is valid and try again." /\
  isAnalyzing (step (run init analysing) (AnalysisSettled 0 None)) = false.
Proof.
  assert (pendingAnalyses (run init analysing) !! 0 = Some (InService ["f0"; "f1"; "f2"]))
    as Hk by (vm_compute; reflexivity).
  destruct (analysis_failure_frame (run init analysing) 0 ["f0"; "f1"; "f2"] Hk)
    as (H1 & H2 & _).
  exact (conj H1 H2).
Defined.

(** * Further properties of the component *)

(** ** The channel in use *)

Lemma handler_channel s e : preserves channel_view (handler s e).
Proof. frame. Qed.

Lemma step_channel_inv s e : channel_inv s -> channel_inv (step s e).
Proof.
  intros (ch & Hbc & Hrole & Hcount & Hclosed). unfold step.
  pose proof (preserves_exec channel_view (handler s e) s (handler_channel s e)) as Hview.
  set (s1 := exec (handler s e) s) in *.
  unfold channel_view in Hview. injection Hview as Hbc1 Hcl1 Hcnt1.
  destruct (decide (role s1 = role s)) as [Heq|Hne].
  - unfold exec. rewrite commit_same by assumption. simpl.
    exists ch. rewrite Hbc1, Hcl1, Hcnt1. repeat split; try congruence; apply Hclosed.
  - rewrite commit_changed_spec by assumption.
    eexists. split; [reflexivity|]. split; [reflexivity|]. split; [reflexivity|].
    intros id. simpl. rewrite Hbc1, Hcl1, Hcnt1, Hbc, elem_of_cons, Hclosed. lia.
Qed.

(** X1. In every state the component reaches there is exactly one open
    channel: the one in use, made by the effect of the current render and
    subscribed for the current role; every channel made before it is
    closed. *)
Theorem one_open_channel (es : list Event) :
  exists ch, bc (run init es) = Some ch /\
    onmessage_role ch = role (run init es) /\
    (channelId ch ∉ closedChannels (run init es)) /\
    forall id, id < channelCount (run init es) ->
      id <> channelId ch -> id ∈ closedChannels (run init es).
Proof.
  assert (channel_inv (run init es)) as (ch & Hbc & Hrole & Hcount & Hclosed).
  { apply run_invariant; [|apply step_channel_inv].
    exists {| channelId := 0; onmessage_role := IDLE |}.
    repeat split; try reflexivity.
    - intros H. inversion H.
    - simpl. lia. }
  exists ch. repeat split; try assumption.
  - rewrite Hclosed. lia.
  - intros id Hlt Hne. apply Hclosed. lia.
Qed.

(** ** The video element and the busy flag *)

Lemma handler_refs s e : preserves video_refs (handler s e).
Proof. frame. Qed.

Lemma step_refs_inv s e : refs_inv s -> refs_inv (step s e).
Proof.
  intros [Hloc Hrem]. unfold step.
  pose proof (preserves_exec video_refs (handler s e) s (handler_refs s e)) as Hview.
  set (s1 := exec (handler s e) s) in *.
  unfold video_refs in Hview. injection Hview as Hloc1 Hrem1.
  destruct (decide (role s1 = role s)) as [Heq|Hne].
  - unfold exec. rewrite commit_same by assumption. simpl.
    split; [rewrite Hloc1, Heq | rewrite Hrem1, Heq]; assumption.
  - rewrite commit_changed_spec by assumption. split; reflexivity.
Qed.

Lemma reachable_refs_inv es : refs_inv (run init es).
Proof. apply run_invariant; [split; reflexivity | apply step_refs_inv]. Qed.

Lemma busy_inv_view s s' : analysis_view s' = analysis_view s -> busy_inv s -> busy_inv s'.
Proof.
  unfold analysis_view, busy_inv. intros H. injection H as -> ->. auto.
Qed.

Lemma busy_only_task s k t :
  busy_inv s -> pendingAnalyses s !! k = Some t ->
  pendingAnalyses s = [t] /\ k = 0 /\ isAnalyzing s = true.
Proof.
  unfold busy_inv. intros Hinv Hk.
  destruct (pendingAnalyses s) as [|t0 [|]]; [discriminate| |contradiction].
  destruct k as [|k]; simpl in Hk; [|destruct k; discriminate].
  injection Hk as ->. auto.
Qed.

Lemma runAnalysis_busy s ctx frame :
  refs_inv s -> busy_inv s ->
  busy_inv (exec (runAnalysis (role s) (isAnalyzing s) ctx frame) s).
Proof.
  intros [Hloc Hrem] Hinv. unfold runAnalysis.
  destruct (isAnalyzing s) eqn:Han; [exact Hinv|].
  assert (pendingAnalyses s = []) as Hnil.
  { unfold busy_inv in Hinv. destruct (pendingAnalyses s) as [|t [|]];
      [reflexivity| |contradiction]. congruence. }
  unfold busy_inv, exec, bind, setIsAnalyzing, setError, write. simpl.
  destruct (decide (role s = HOST)) as [Hhost|Hother]; unfold read; simpl.
  - rewrite Hloc, bool_decide_eq_true_2 by assumption. simpl.
    destruct ctx; simpl; [|rewrite Hnil; reflexivity].
    destruct frame; simpl; rewrite Hnil; reflexivity.
  - rewrite Hrem, bool_decide_eq_false_2 by assumption. simpl.
    destruct ctx; simpl; [|rewrite Hnil; reflexivity].
    destruct frame; simpl; rewrite Hnil; reflexivity.
Qed.

Lemma step_busy_inv s e : refs_inv s -> busy_inv s -> busy_inv (step s e).
Proof.
  intros Hrefs Hinv. unfold step.
  apply (busy_inv_view (exec (handler s e) s)); [apply commit_analysis|].
  destruct e;
    try (apply (busy_inv_view s); [|exact Hinv];
         apply (preserves_exec analysis_view); frame; fail).
  - apply runAnalysis_busy; assumption.
  - unfold handler. destruct (pendingAnalyses s !! k) as [[frames|frames]|] eqn:Hk; try exact Hinv.
    destruct (busy_only_task s k _ Hinv Hk) as (Hp & -> & Han).
    unfold busy_inv, exec, bind, write, runAnalysis_timer, runAnalysis_try, try_catch. simpl.
    rewrite Hp. simpl.
    destruct (decide (length frames < 3)); simpl; [|exact Han].
    destruct frame; simpl; [exact Han | reflexivity].
  - unfold handler. destruct (pendingAnalyses s !! k) as [[frames|frames]|] eqn:Hk; try exact Hinv.
    destruct (busy_only_task s k _ Hinv Hk) as (Hp & -> & Han).
    unfold busy_inv, exec, bind, write, runAnalysis_result, runAnalysis_try, try_catch. simpl.
    rewrite Hp. simpl. destruct result; reflexivity.
Qed.

Lemma reachable_busy_inv es : refs_inv (run init es) /\ busy_inv (run init es).
Proof.
  apply (run_invariant (fun s => refs_inv s /\ busy_inv s)).
  - split; [split; reflexivity | reflexivity].
  - intros s e [Hrefs Hbusy]. split; [apply step_refs_inv | apply step_busy_inv]; assumption.
Qed.

(** X2. The busy flag is exact: after every sequence of events,
    [isAnalyzing] is true if and only if an invocation of [runAnalysis] is
    outstanding.  The flag is never left set with nothing running (the
    early [return] for a missing video element is never taken, because the
    element is always in the ref that [runAnalysis] reads), and it is never
    cleared while an analysis runs. *)
Theorem busy_flag_exact (es : list Event) :
  isAnalyzing (run init es) = true <-> pendingAnalyses (run init es) <> [].
Proof.
  destruct (reachable_busy_inv es) as [_ Hbusy]. unfold busy_inv in Hbusy.
  destruct (pendingAnalyses (run init es)) as [|t [|]]; [| |contradiction].
  - rewrite Hbusy. split; [discriminate | intros H; contradiction].
  - rewrite Hbusy. split; [discriminate | reflexivity].
Qed.

(** X3. A HOST never shows remote media: in every state the component
    reaches with the role HOST, a remote track that arrives changes
    nothing, because [remoteVideoRef] holds no element. *)
Theorem host_ignores_remote_track (es : list Event) (pc : nat) :
  role (run init es) = HOST ->
  step (run init es) (TrackEvent pc) = run init es.
Proof.
  intros Hrole. destruct (reachable_refs_inv es) as [_ Hrem].
  apply step_idle. unfold handler, on_connection, exec, bind, read. simpl.
  destruct (connections (run init es) !! pc) as [c|]; [|reflexivity].
  destruct (isClosed c); [reflexivity|].
  unfold ontrack, bind, read. rewrite Hrem, bool_decide_eq_true_2 by assumption.
  reflexivity.
Qed.

Lemma host_ignores_remote_track_witness :
  step host_awaiting_answer (TrackEvent 0) = host_awaiting_answer.
Proof. apply (host_ignores_remote_track start_streaming 0). reflexivity. Defined.

(** ** A run of the analysis *)

Lemma analyze_click s f :
  isAnalyzing s = false ->
  (if decide (role s = HOST) then localVideoRef s else remoteVideoRef s) = true ->
  step s (ClickAnalyze true (Some f)) =
  set_pendingAnalyses (pendingAnalyses s ++ [Sampling [f]])
    (set_error None (set_isAnalyzing true s)).
Proof.
  intros Han Hvideo. unfold step, handler, runAnalysis. rewrite Han.
  unfold exec at 2. unfold bind, setIsAnalyzing, setError, write. cbv iota beta.
  destruct (decide (role s = HOST)); unfold read; simpl; simpl in Hvideo;
    rewrite Hvideo; simpl; unfold exec; rewrite commit_same; reflexivity.
Qed.

Lemma timer_elapsed s frames frame :
  pendingAnalyses s = [Sampling frames] ->
  step s (TimerElapsed 0 frame) =
  if decide (length frames < 3) then
    match frame with
    | Some f => set_pendingAnalyses [Sampling (frames ++ [f])] s
    | None =>
        set_isAnalyzing false
          (set_console (console s ++ ["AI analysis failed"])
             (set_error
                (Some "AI analysis failed. Please ensure your API_KEY is valid and try again.")
                (set_pendingAnalyses [] s)))
    end
  else set_pendingAnalyses [InService frames] s.
Proof.
  intros Hp. unfold step, handler. rewrite Hp. simpl lookup. cbv iota beta.
  unfold exec at 2. unfold bind, write, runAnalysis_timer, runAnalysis_try, try_catch. simpl.
  rewrite Hp. simpl.
  destruct (decide (length frames < 3)); [destruct frame|]; simpl;
    unfold exec; rewrite commit_same; reflexivity.
Qed.

Lemma analysis_resolved s k frames r :
  pendingAnalyses s !! k = Some (InService frames) ->
  step s (AnalysisSettled k (Some r)) =
  set_isAnalyzing false
    (set_history (r :: history s) (set_pendingAnalyses (delete k (pendingAnalyses s)) s)).
Proof.
  intros Hk. unfold step, handler. rewrite Hk.
  unfold exec at 2. unfold bind, write, runAnalysis_result, runAnalysis_try, try_catch. simpl.
  unfold exec. rewrite commit_same; reflexivity.
Qed.

(** X4. The sampling loop.  Started where no analysis is outstanding and the
    video element is mounted, [runAnalysis] takes one frame at the click and
    one after each of the next two timers; the service is not called before
    the third timer has elapsed, and then it is called once, with exactly
    the three frames in the order they were taken. *)
Theorem sampling_three_frames (s : State) (f0 f1 f2 : string) (late : option string) :
  isAnalyzing s = false -> pendingAnalyses s = [] ->
  (if decide (role s = HOST) then localVideoRef s else remoteVideoRef s) = true ->
  let click := ClickAnalyze true (Some f0) in
  let t1 := TimerElapsed 0 (Some f1) in
  let t2 := TimerElapsed 0 (Some f2) in
  let t3 := TimerElapsed 0 late in
  in_flight (run s [click]) = 0 /\
  in_flight (run s [click; t1]) = 0 /\
  pendingAnalyses (run s [click; t1; t2]) = [Sampling [f0; f1; f2]] /\
  pendingAnalyses (run s [click; t1; t2; t3]) = [InService [f0; f1; f2]] /\
  isAnalyzing (run s [click; t1; t2; t3]) = true.
Proof.
  intros Han Hp Hvideo click t1 t2 t3.
  assert (run s [click] =
          set_pendingAnalyses [Sampling [f0]] (set_error None (set_isAnalyzing true s))) as H1.
  { change (run s [click]) with (step s click). unfold click.
    rewrite analyze_click by assumption. rewrite Hp. reflexivity. }
  assert (run s [click; t1] = set_pendingAnalyses [Sampling [f0; f1]] (run s [click])) as H2.
  { change (run s [click; t1]) with (step (run s [click]) t1). unfold t1.
    rewrite (timer_elapsed _ [f0]) by (rewrite H1; reflexivity). reflexivity. }
  assert (run s [click; t1; t2] =
          set_pendingAnalyses [Sampling [f0; f1; f2]] (run s [click; t1])) as H3.
  { change (run s [click; t1; t2]) with (step (run s [click; t1]) t2). unfold t2.
    rewrite (timer_elapsed _ [f0; f1]) by (rewrite H2; reflexivity). reflexivity. }
  assert (run s [click; t1; t2; t3] =
          set_pendingAnalyses [InService [f0; f1; f2]] (run s [click; t1; t2])) as H4.
  { change (run s [click; t1; t2; t3]) with (step (run s [click; t1; t2]) t3). unfold t3.
    rewrite (timer_elapsed _ [f0; f1; f2]) by (rewrite H3; reflexivity). reflexivity. }
  repeat split.
  - rewrite H1. reflexivity.
  - rewrite H2. reflexivity.
  - rewrite H3. reflexivity.
  - rewrite H4. reflexivity.
  - rewrite H4, H3, H2, H1. reflexivity.
Qed.

Lemma sampling_three_frames_witness :
  pendingAnalyses
    (run host_awaiting_answer
       [ClickAnalyze true (Some "f0"); TimerElapsed 0 (Some "f1");
        TimerElapsed 0 (Some "f2"); TimerElapsed 0 None]) =
  [InService ["f0"; "f1"; "f2"]].
Proof.
  destruct (sampling_three_frames host_awaiting_answer "f0" "f1" "f2" None)
    as (_ & _ & _ & H & _); [reflexivity | reflexivity | reflexivity | exact H].
Defined.

(** X5. A successful analysis: when [analyzeVideoFrames] returns a result,
    the result is put at the front of the history, the invocation is over
    and [isAnalyzing] is cleared; the error and everything of the session
    are as before. *)
Theorem analysis_success (s : State) (k : nat) (frames : list string) (r : AnalysisResult) :
  pendingAnalyses s !! k = Some (InService frames) ->
  let s' := step s (AnalysisSettled k (Some r)) in
  history s' = r :: history s /\
  isAnalyzing s' = false /\
  pendingAnalyses s' = delete k (pendingAnalyses s) /\
  error s' = error s /\
  console s' = console s /\
  closed_view s' = closed_view s /\
  isLive s' = isLive s /\
  posted s' = posted s.
Proof.
  intros Hk s'. unfold s'. rewrite (analysis_resolved s k frames r Hk).
  repeat split; reflexivity.
Qed.

Lemma analysis_success_witness :
  let r := {| timestamp := 1; summary := "calm"; objects := ["desk"];
              threatLevel := Low; detailedLog := "nothing moves" |} in
  history (step (run init analysing) (AnalysisSettled 0 (Some r))) = [r].
Proof.
  intros r.
  assert (pendingAnalyses (run init analysing) !! 0 = Some (InService ["f0"; "f1"; "f2"]))
    as Hk by (vm_compute; reflexivity).
  destruct (analysis_success (run init analysing) 0 ["f0"; "f1"; "f2"] r Hk) as [H _].
  rewrite H. vm_compute. reflexivity.
Defined.

Lemma handler_history s e :
  (forall k r, e <> AnalysisSettled k (Some r)) -> preserves history (handler s e).
Proof.
  intros He. destruct e; try (frame; fail).
  unfold handler. destruct (pendingAnalyses s !! k) as [[?|?]|]; try (frame; fail).
  destruct result as [r|]; [exfalso; exact (He k r eq_refl)|].
  unfold runAnalysis_result. frame.
Qed.

Lemma commit_history r : preserves history (commit r).
Proof. frame. Qed.

Lemma step_history s e :
  history (step s e) = history s \/
  exists k r, e = AnalysisSettled k (Some r) /\ history (step s e) = r :: history s.
Proof.
  unfold step. rewrite (preserves_exec history) by apply commit_history.
  destruct e; try (left; apply (preserves_exec history), handler_history; discriminate).
  destruct result as [r|];
    [|left; apply (preserves_exec history), handler_history; discriminate].
  destruct (pendingAnalyses s !! k) as [[frames|frames]|] eqn:Hk.
  - left. unfold handler. rewrite Hk. reflexivity.
  - right. exists k, r. split; [reflexivity|].
    unfold handler. rewrite Hk.
    unfold exec, bind, write, runAnalysis_result, runAnalysis_try, try_catch. reflexivity.
  - left. unfold handler. rewrite Hk. reflexivity.
Qed.

(** X6. The history only grows at the front.  No event removes or reorders
    a result: after any sequence of events the history is the old history
    with the new results before it, at most one for each turn. *)
Theorem history_grows (s : State) (es : list Event) :
  exists added, history (run s es) = added ++ history s /\ length added <= length es.
Proof.
  induction es as [|e es IH] using rev_ind.
  - exists []. split; [reflexivity | simpl; lia].
  - destruct IH as (added & Hadded & Hlen). rewrite run_snoc, length_app. simpl.
    destruct (step_history (run s es) e) as [Hsame|(k & r & _ & Hnew)].
    + exists added. split; [congruence | lia].
    + exists (r :: added). split; [rewrite Hnew, Hadded; reflexivity | simpl; lia].
Qed.

(** ** Start Streaming to its end *)

Lemma alter_last {A} (f : A -> A) (l : list A) (x : A) :
  alter f (length l) (l ++ [x]) = l ++ [f x].
Proof. induction l as [|a l IH]; simpl; [reflexivity|]. f_equal. exact IH. Qed.

Lemma startHost_resume_granted captured n sdp ch s :
  bc s = Some ch -> channelId ch ∉ closedChannels s ->
  startHost_resume captured (Some n) (Some sdp) true s =
  (Normal tt, granted captured n sdp (channelId ch) s).
Proof.
  intros Hbc Hopen. unfold startHost_resume.
  erewrite try_catch_bind by reflexivity.
  erewrite try_catch_bind by reflexivity.
  erewrite try_catch_bind by reflexivity.
  cbn [localVideoRef set_localStream set_trackCount].
  destruct (localVideoRef s) eqn:Hloc.
  all: erewrite try_catch_bind by reflexivity.
  all: erewrite try_catch_bind by reflexivity.
  all: erewrite try_catch_bind by apply forEach_addTrack.
  all: erewrite try_catch_bind by reflexivity.
  all: erewrite try_catch_bind by reflexivity.
  all: erewrite try_catch_bind by (apply (postMessage_open _ ch); assumption).
  all: unfold try_catch, setIsLive, write, granted; rewrite Hloc; f_equal.
  all: simpl; rewrite !alter_last; reflexivity.
Qed.

Lemma granted_fields captured n sdp id s :
  role (granted captured n sdp id s) = role s /\
  peerConnection (granted captured n sdp id s) = Some (length (connections s)) /\
  connections (granted captured n sdp id s) =
    connections s ++ [host_connection captured (seq (trackCount s) n) sdp] /\
  localStream (granted captured n sdp id s) = Some (seq (trackCount s) n) /\
  posted (granted captured n sdp id s) = posted s ++ [(id, signal offer sdp HOST)] /\
  bc (granted captured n sdp id s) = bc s /\
  isLive (granted captured n sdp id s) = true /\
  error (granted captured n sdp id s) = error s.
Proof. repeat split; reflexivity. Qed.

Lemma user_media_granted s k captured n sdp ch :
  pendingUserMedia s !! k = Some captured ->
  bc s = Some ch -> channelId ch ∉ closedChannels s ->
  step s (UserMediaSettled k (Some n) (Some sdp) true) =
  granted captured n sdp (channelId ch)
    (set_pendingUserMedia (delete k (pendingUserMedia s)) s).
Proof.
  intros Hk Hbc Hopen. unfold step, handler. rewrite Hk.
  unfold exec at 2. unfold bind. unfold write at 1. cbv iota beta.
  rewrite (startHost_resume_granted captured n sdp ch) by assumption.
  unfold exec. rewrite commit_same; reflexivity.
Qed.

Lemma reachable_channel_inv es : channel_inv (run init es).
Proof.
  apply run_invariant; [|apply step_channel_inv].
  exists {| channelId := 0; onmessage_role := IDLE |}.
  repeat split; try reflexivity.
  - intros H. inversion H.
  - simpl. lia.
Qed.

(** The channel the effect makes at a change of role is open. *)
Lemma fresh_channel_open s ch :
  channel_inv s -> bc s = Some ch ->
  channelCount s ∉ channelId ch :: closedChannels s.
Proof.
  intros (ch' & Hbc & _ & Hcount & Hclosed) Hch.
  assert (ch' = ch) as -> by congruence.
  rewrite elem_of_cons, Hclosed. lia.
Qed.

(** X7. Start Streaming with the camera granted and the transport willing,
    from any idle state the component reaches: the role is HOST, a new
    connection is current and carries the tracks of the new local stream
    and the offer as local description, still without remote description;
    the offer is posted once, on the channel of the new render, with the
    sender HOST; and [isLive] is already true although nothing is connected
    yet. *)
Theorem start_streaming_succeeds (es : list Event) (n : nat) (sdp : Payload) :
  role (run init es) = IDLE ->
  let s := run init es in
  let tracks := seq (trackCount s) n in
  let s' := run s [ClickStartStreaming;
                   UserMediaSettled (length (pendingUserMedia s)) (Some n) (Some sdp) true] in
  role s' = HOST /\
  peerConnection s' = Some (length (connections s)) /\
  connections s' !! length (connections s) = Some (host_connection IDLE tracks sdp) /\
  localStream s' = Some tracks /\
  posted s' = posted s ++ [(channelCount s, signal offer sdp HOST)] /\
  bc s' = Some {| channelId := channelCount s; onmessage_role := HOST |} /\
  isLive s' = true /\
  error s' = error s.
Proof.
  intros Hrole s tracks s'.
  pose proof (reachable_channel_inv es) as Hch. fold s in Hch.
  destruct Hch as (ch & Hbc & Hchrole & Hcount & Hclosed).
  assert (channel_inv s) as Hinv by (exists ch; auto).
  set (s1 := step s ClickStartStreaming).
  assert (s1 = exec (effect HOST)
                 (cleaned (set_closedChannels (channelId ch :: closedChannels s)
                    (set_videoRefs true false
                       (set_pendingUserMedia (pendingUserMedia s ++ [IDLE])
                          (set_role HOST s))))))
    as Hs1 by (unfold s1; rewrite start_streaming_step, Hbc by assumption; reflexivity).
  assert (s' = granted IDLE n sdp (channelCount s)
                 (set_pendingUserMedia (pendingUserMedia s) s1)) as ->.
  { change s' with (step s1 (UserMediaSettled (length (pendingUserMedia s)) (Some n)
                               (Some sdp) true)).
    rewrite (user_media_granted _ _ IDLE n sdp
               {| channelId := channelCount s; onmessage_role := HOST |}).
    - rewrite Hs1. simpl. rewrite (delete_middle _ []), app_nil_r. reflexivity.
    - rewrite Hs1. simpl. apply list_lookup_middle. reflexivity.
    - rewrite Hs1. reflexivity.
    - rewrite Hs1. simpl. apply (fresh_channel_open s ch); assumption. }
  assert (role s1 = HOST) as Hr1 by (rewrite Hs1; reflexivity).
  assert (connections s1 = match peerConnection s with
                           | Some pc => alter (with_isClosed true) pc (connections s)
                           | None => connections s
                           end) as Hc1 by (rewrite Hs1; reflexivity).
  assert (posted s1 = posted s) as Hp1 by (rewrite Hs1; reflexivity).
  assert (trackCount s1 = trackCount s) as Ht1 by (rewrite Hs1; reflexivity).
  assert (error s1 = error s) as He1 by (rewrite Hs1; reflexivity).
  assert (bc s1 = Some {| channelId := channelCount s; onmessage_role := HOST |}) as Hb1
    by (rewrite Hs1; reflexivity).
  assert (length (connections s1) = length (connections s)) as Hlen
    by (rewrite Hc1; destruct (peerConnection s); [apply length_alter | reflexivity]).
  clear Hs1. clearbody s1.
  destruct (granted_fields IDLE n sdp (channelCount s) (set_pendingUserMedia (pendingUserMedia s) s1))
    as (G1 & G2 & G3 & G4 & G5 & G6 & G7 & G8).
  cbn [role connections trackCount posted bc error set_pendingUserMedia] in G1, G2, G3, G4, G5, G6, G8.
  rewrite ?G1, ?G2, ?G3, ?G4, ?G5, ?G6, ?G7, ?G8, ?Hlen, ?Ht1, ?Hp1, ?Hr1, ?Hb1, ?He1.
  repeat split; try reflexivity.
  rewrite <- Hlen. apply list_lookup_middle. reflexivity.
Qed.

Lemma start_streaming_succeeds_witness :
  role (run (run init [])
          [ClickStartStreaming;
           UserMediaSettled (length (pendingUserMedia (run init []))) (Some 2) (Some 50) true])
  = HOST.
Proof. exact (proj1 (start_streaming_succeeds [] 2 50 eq_refl)). Defined.

(** X8. Ending the session does not cancel a camera request that is still
    open.  When the request is granted after End Session, [startHost] goes
    on as if nothing had happened: in the idle component a new connection
    is made and is current and alive, the offer is posted and [isLive] is
    set, while the role stays IDLE. *)
Theorem stale_camera_grant (es : list Event) (k : nat) (captured : AppRole)
    (n : nat) (sdp : Payload) :
  role (run init es) <> IDLE ->
  pendingUserMedia (run init es) !! k = Some captured ->
  let s := run init es in
  let s' := run s [ClickEndSession; UserMediaSettled k (Some n) (Some sdp) true] in
  role s' = IDLE /\
  peerConnection s' = Some (length (connections s)) /\
  connections s' !! length (connections s) =
    Some (host_connection captured (seq (trackCount s) n) sdp) /\
  posted s' = posted s ++ [(channelCount s, signal offer sdp HOST)] /\
  isLive s' = true.
Proof.
  intros Hrole Hk s s'.
  pose proof (reachable_channel_inv es) as Hch. fold s in Hch.
  destruct Hch as (ch & Hbc & Hchrole & Hcount & Hclosed).
  assert (channel_inv s) as Hinv by (exists ch; auto).
  set (s1 := step s ClickEndSession).
  assert (s1 = exec (effect IDLE)
                 (cleaned (set_closedChannels (channelId ch :: closedChannels s)
                    (set_videoRefs false true (set_role IDLE (cleaned s))))))
    as Hs1 by (unfold s1; rewrite endSession_step, Hbc by assumption; reflexivity).
  assert (s' = granted captured n sdp (channelCount s)
                 (set_pendingUserMedia (delete k (pendingUserMedia s)) s1)) as ->.
  { change s' with (step s1 (UserMediaSettled k (Some n) (Some sdp) true)).
    rewrite (user_media_granted _ _ captured n sdp
               {| channelId := channelCount s; onmessage_role := IDLE |}).
    - rewrite Hs1. reflexivity.
    - rewrite Hs1. exact Hk.
    - rewrite Hs1. reflexivity.
    - rewrite Hs1. simpl. apply (fresh_channel_open s ch); assumption. }
  assert (role s1 = IDLE) as Hr1 by (rewrite Hs1; reflexivity).
  assert (connections s1 = match peerConnection s with
                           | Some pc => alter (with_isClosed true) pc (connections s)
                           | None => connections s
                           end) as Hc1 by (rewrite Hs1; reflexivity).
  assert (posted s1 = posted s) as Hp1 by (rewrite Hs1; reflexivity).
  assert (trackCount s1 = trackCount s) as Ht1 by (rewrite Hs1; reflexivity).
  assert (error s1 = error s) as He1 by (rewrite Hs1; reflexivity).
  assert (bc s1 = Some {| channelId := channelCount s; onmessage_role := IDLE |}) as Hb1
    by (rewrite Hs1; reflexivity).
  assert (length (connections s1) = length (connections s)) as Hlen
    by (rewrite Hc1; destruct (peerConnection s); [apply length_alter | reflexivity]).
  clear Hs1. clearbody s1.
  destruct (granted_fields captured n sdp (channelCount s) (set_pendingUserMedia (delete k (pendingUserMedia s)) s1))
    as (G1 & G2 & G3 & G4 & G5 & G6 & G7 & G8).
  cbn [role connections trackCount posted bc error set_pendingUserMedia] in G1, G2, G3, G4, G5, G6, G8.
  rewrite ?G1, ?G2, ?G3, ?G4, ?G5, ?G6, ?G7, ?G8, ?Hlen, ?Ht1, ?Hp1, ?Hr1, ?Hb1, ?He1.
  repeat split; try reflexivity.
  rewrite <- Hlen. apply list_lookup_middle. reflexivity.
Qed.

Lemma stale_camera_grant_witness :
  role (run (run init [ClickStartStreaming])
          [ClickEndSession; UserMediaSettled 0 (Some 2) (Some 50) true]) = IDLE.
Proof.
  assert (role (run init [ClickStartStreaming]) <> IDLE) as Hrole
    by (vm_compute; discriminate).
  assert (pendingUserMedia (run init [ClickStartStreaming]) !! 0 = Some IDLE) as Hk
    by (vm_compute; reflexivity).
  exact (proj1 (stale_camera_grant [ClickStartStreaming] 0 IDLE 2 50 Hrole Hk)).
Defined.

(** ** Join Session *)

Lemma join_session_step s :
  role s <> PEER ->
  step s ClickJoinSession =
  exec (effect PEER)
    (cleaned (set_closedChannels
                (match bc s with
                 | Some ch => channelId ch :: closedChannels s
                 | None => closedChannels s
                 end)
                (set_videoRefs false true
                   (set_peerConnection (Some (length (connections s)))
                      (set_connections (connections s ++ [new_RTCPeerConnection (role s)])
                         (set_role PEER s)))))).
Proof.
  intros Hrole. unfold step, handler. unfold exec at 2.
  unfold joinPeer, createPeerConnection, bind, setRole, write, read, ret. simpl snd.
  rewrite commit_changed_spec by (simpl; congruence). reflexivity.
Qed.

Lemma onmessage_no_connection role_ msg reply s :
  peerConnection s = None -> onmessage role_ msg reply s = (Normal tt, s).
Proof.
  intros Hpc. unfold onmessage.
  destruct (decide (role_ = IDLE)); [reflexivity|].
  unfold try_catch.
  destruct (decide (type msg = offer /\ role_ = PEER));
    [unfold handleOffer, bind, read; rewrite Hpc; reflexivity|].
  destruct (decide (type msg = answer /\ role_ = HOST));
    [unfold handleAnswer, bind, read; rewrite Hpc; reflexivity|].
  destruct (decide (type msg = candidate)); [|reflexivity].
  unfold bind, read. rewrite Hpc. reflexivity.
Qed.

(** Without a current connection no message does anything. *)
Lemma deliver_no_connection s msg reply :
  peerConnection s = None -> step s (BusMessage msg reply) = s.
Proof.
  intros Hpc. apply step_idle. unfold handler, exec.
  destruct (bc s) as [ch|]; [|reflexivity].
  destruct (decide (channelId ch ∈ closedChannels s)); [reflexivity|].
  rewrite onmessage_no_connection by assumption. reflexivity.
Qed.

(** X9. The connection [joinPeer] makes is closed by the re-render it
    causes: the role changes to PEER, so the effect of the old render is
    cleaned up, and [cleanup] closes the current connection, which is the
    new one.  After Join Session the component is a PEER without connection,
    and in that state every signaling message, the offer included, leaves
    it exactly as it is: nothing is applied and no answer is posted. *)
Theorem join_leaves_no_connection (s : State) :
  role s <> PEER ->
  let s' := step s ClickJoinSession in
  role s' = PEER /\
  peerConnection s' = None /\
  connections s' =
    connections s ++ [with_isClosed true (new_RTCPeerConnection (role s))] /\
  isLive s' = false /\
  (forall msg reply, step s' (BusMessage msg reply) = s').
Proof.
  intros Hrole s'.
  assert (peerConnection s' = None) as Hpc
    by (unfold s'; rewrite join_session_step by assumption; reflexivity).
  split; [unfold s'; rewrite join_session_step by assumption; reflexivity|].
  split; [exact Hpc|]. split; [|split].
  - unfold s'. rewrite join_session_step by assumption.
    change (alter (with_isClosed true) (length (connections s))
              (connections s ++ [new_RTCPeerConnection (role s)]) =
            connections s ++ [with_isClosed true (new_RTCPeerConnection (role s))]).
    apply alter_last.
  - unfold s'. rewrite join_session_step by assumption. reflexivity.
  - intros msg reply. apply deliver_no_connection, Hpc.
Qed.

Lemma join_leaves_no_connection_witness :
  step (step init ClickJoinSession) (BusMessage (signal offer 50 HOST) accepting) =
  step init ClickJoinSession.
Proof.
  assert (role init <> PEER) as Hrole by discriminate.
  exact (proj2 (proj2 (proj2 (proj2 (join_leaves_no_connection init Hrole))))
           (signal offer 50 HOST) accepting).
Defined.

(** ** What a message cannot do *)

Lemma onmessage_ambient role_ msg reply : preserves ambient_view (onmessage role_ msg reply).
Proof. frame. Qed.

Lemma onmessage_closed role_ msg reply : preserves closed_view (onmessage role_ msg reply).
Proof. frame. Qed.

Lemma onmessage_media role_ msg reply : preserves media_view (onmessage role_ msg reply).
Proof. frame. Qed.

Lemma onmessage_completes role_ msg reply : completes (onmessage role_ msg reply).
Proof. total. Qed.

Lemma deliver_step s msg reply :
  step s (BusMessage msg reply) = exec (handler s (BusMessage msg reply)) s.
Proof.
  unfold step. set (s1 := exec _ s).
  assert (closed_view s1 = closed_view s) as Hview.
  { unfold s1, handler. destruct (bc s) as [ch|]; [|reflexivity].
    destruct (decide (channelId ch ∈ closedChannels s)); [reflexivity|].
    apply (preserves_exec closed_view), onmessage_closed. }
  unfold exec. rewrite commit_same; [reflexivity|].
  unfold closed_view in Hview. congruence.
Qed.

(** X10. What a signaling message cannot do, whatever it carries and
    whatever the transport answers: the handler never ends by an exception,
    and the turn creates no connection, closes none, changes neither the
    current connection nor the tracks attached nor the local stream,
    neither the role nor the live flag, the error shown, the history, the
    channel or the analysis.  Only descriptions and candidates of
    connections, the messages posted and the console can change. *)
Theorem message_frame (s : State) (msg : SignalingMessage) (reply : TransportReply) :
  (forall role_, completes (onmessage role_ msg reply)) /\
  ambient_view (step s (BusMessage msg reply)) = ambient_view s /\
  closed_view (step s (BusMessage msg reply)) = closed_view s /\
  media_view (step s (BusMessage msg reply)) = media_view s.
Proof.
  split; [intros role_; apply onmessage_completes|].
  rewrite deliver_step. unfold handler.
  destruct (bc s) as [ch|]; [|repeat split; reflexivity].
  destruct (decide (channelId ch ∈ closedChannels s)); [repeat split; reflexivity|].
  split; [|split].
  - apply (preserves_exec ambient_view), onmessage_ambient.
  - apply (preserves_exec closed_view), onmessage_closed.
  - apply (preserves_exec media_view), onmessage_media.
Qed.

(** X11. An idle component ignores the channel: in every state it reaches
    with the role IDLE, a message of any kind changes nothing, also when a
    connection is still around. *)
Theorem idle_ignores_messages (es : list Event) (msg : SignalingMessage)
    (reply : TransportReply) :
  role (run init es) = IDLE ->
  step (run init es) (BusMessage msg reply) = run init es.
Proof.
  intros Hrole. destruct (reachable_subscribed es) as (ch & Hbc & Hch).
  apply step_idle. unfold handler, exec. rewrite Hbc.
  destruct (decide (channelId ch ∈ closedChannels (run init es))); [reflexivity|].
  unfold onmessage. rewrite Hch, Hrole. reflexivity.
Qed.

Lemma idle_ignores_messages_witness :
  step (run init [ClickStartStreaming; ClickEndSession;
                  UserMediaSettled 0 (Some 2) (Some 50) true])
    (BusMessage (signal candidate 7 PEER) accepting) =
  run init [ClickStartStreaming; ClickEndSession;
            UserMediaSettled 0 (Some 2) (Some 50) true].
Proof.
  apply (idle_ignores_messages
           [ClickStartStreaming; ClickEndSession;
            UserMediaSettled 0 (Some 2) (Some 50) true]).
  vm_compute. reflexivity.
Defined.

(** ** Offer and answer *)

Lemma onmessage_offer role_ msg reply :
  type msg = offer -> role_ = PEER ->
  onmessage role_ msg reply =
  try_catch (handleOffer (payload msg) reply) (console_error "Signal Handling Error:").
Proof.
  intros Ht Hr. unfold onmessage.
  destruct (decide (role_ = IDLE)); [congruence|].
  destruct (decide (type msg = offer /\ role_ = PEER)) as [_|Hn]; [reflexivity|].
  exfalso. apply Hn. auto.
Qed.

Lemma onmessage_answer role_ msg reply :
  type msg = answer -> role_ = HOST ->
  onmessage role_ msg reply =
  try_catch (handleAnswer (payload msg) reply) (console_error "Signal Handling Error:").
Proof.
  intros Ht Hr. unfold onmessage.
  destruct (decide (role_ = IDLE)); [congruence|].
  destruct (decide (type msg = offer /\ role_ = PEER)) as [[? _]|_]; [congruence|].
  destruct (decide (type msg = answer /\ role_ = HOST)) as [_|Hn]; [reflexivity|].
  exfalso. apply Hn. auto.
Qed.

Lemma handleOffer_accepted s pc ch sdp ans reply :
  peerConnection s = Some pc -> bc s = Some ch -> channelId ch ∉ closedChannels s ->
  setRemoteDescription_ok reply = true -> createAnswer_result reply = Some ans ->
  setLocalDescription_ok reply = true ->
  handleOffer sdp reply s =
  (Normal tt,
   set_posted (posted s ++ [(channelId ch, signal answer ans PEER)])
     (set_connections (alter (answered sdp ans) pc (connections s)) s)).
Proof.
  intros Hpc Hbc Hopen Hr Ha Hl. unfold handleOffer, bind at 1, read.
  rewrite Hpc, Hr, Ha, Hl. cbv iota beta.
  unfold bind, setRemoteDescription, created, setLocalDescription, update_connection,
    write, ret. cbv iota beta.
  rewrite (postMessage_open _ ch) by assumption.
  f_equal. simpl. rewrite list_alter_alter_eq. reflexivity.
Qed.

Lemma handleOffer_refused s pc sdp reply :
  peerConnection s = Some pc ->
  setRemoteDescription_ok reply = false \/ createAnswer_result reply = None \/
    setLocalDescription_ok reply = false ->
  handleOffer sdp reply s =
  (Thrown,
   if setRemoteDescription_ok reply
   then set_connections (alter (with_remoteDescription (Some sdp)) pc (connections s)) s
   else s).
Proof.
  intros Hpc Hfail. unfold handleOffer, bind at 1, read. rewrite Hpc. cbv iota beta.
  unfold bind, setRemoteDescription, created, setLocalDescription, update_connection,
    write, ret, throw.
  destruct (setRemoteDescription_ok reply); [|reflexivity]. cbv iota beta.
  destruct (createAnswer_result reply) as [ans|]; [|reflexivity]. cbv iota beta.
  destruct (setLocalDescription_ok reply); [|reflexivity].
  destruct Hfail as [H|[H|H]]; discriminate H.
Qed.

(** X12. An offer the transport does not carry through.  When a PEER with a
    connection receives an offer and the transport refuses the remote
    description, makes no answer, or refuses the answer as local description,
    the handler catches the failure: it is logged once, nothing is posted,
    and no local description is set.  A remote description that was taken
    before the failure stays applied. *)
Theorem offer_not_carried_through (s : State) (pc : nat) (msg : SignalingMessage)
    (reply : TransportReply) :
  type msg = offer -> peerConnection s = Some pc ->
  setRemoteDescription_ok reply = false \/ createAnswer_result reply = None \/
    setLocalDescription_ok reply = false ->
  onmessage PEER msg reply s =
  (Normal tt,
   set_console (console s ++ ["Signal Handling Error:"])
     (if setRemoteDescription_ok reply
      then set_connections
             (alter (with_remoteDescription (Some (payload msg))) pc (connections s)) s
      else s)).
Proof.
  intros Ht Hpc Hfail. rewrite onmessage_offer by auto.
  unfold try_catch. rewrite (handleOffer_refused s pc) by assumption.
  destruct (setRemoteDescription_ok reply); reflexivity.
Qed.

Lemma offer_not_carried_through_witness :
  onmessage PEER (signal offer 50 HOST) no_answer_made peer_before_render =
  (Normal tt,
   set_console (console peer_before_render ++ ["Signal Handling Error:"])
     (if setRemoteDescription_ok no_answer_made
      then set_connections
             (alter (with_remoteDescription (Some (payload (signal offer 50 HOST)))) 0
                (connections peer_before_render)) peer_before_render
      else peer_before_render)).
Proof.
  apply (offer_not_carried_through peer_before_render 0 (signal offer 50 HOST) no_answer_made).
  - reflexivity.
  - vm_compute. reflexivity.
  - right. left. reflexivity.
Defined.

(** X13. The exchange of descriptions.  A PEER with a connection that
    receives the offer [sdp], with a willing transport, applies it as remote
    description, takes the answer of the transport as local description and
    posts it once with the sender PEER.  A HOST with a connection that
    receives this message applies the answer as remote description and
    posts nothing.  So the answering side's local description is the
    offering side's remote description. *)
Theorem offer_answer_exchange (p h : State) (pp ph : nat) (ch : BroadcastChannel)
    (sdp ans : Payload) (reply_p reply_h : TransportReply) :
  peerConnection p = Some pp -> bc p = Some ch -> channelId ch ∉ closedChannels p ->
  setRemoteDescription_ok reply_p = true -> createAnswer_result reply_p = Some ans ->
  setLocalDescription_ok reply_p = true ->
  peerConnection h = Some ph -> setRemoteDescription_ok reply_h = true ->
  let p' := exec (onmessage PEER (signal offer sdp HOST) reply_p) p in
  let h' := exec (onmessage HOST (signal answer ans PEER) reply_h) h in
  p' = set_posted (posted p ++ [(channelId ch, signal answer ans PEER)])
         (set_connections (alter (answered sdp ans) pp (connections p)) p) /\
  h' = set_connections (alter (with_remoteDescription (Some ans)) ph (connections h)) h /\
  (forall cp chost, connections p !! pp = Some cp -> connections h !! ph = Some chost ->
     (localDescription <$> connections p' !! pp) =
     (remoteDescription <$> connections h' !! ph)).
Proof.
  intros Hpp Hbc Hopen Hr Ha Hl Hph Hrh p' h'.
  assert (p' = set_posted (posted p ++ [(channelId ch, signal answer ans PEER)])
                 (set_connections (alter (answered sdp ans) pp (connections p)) p)) as Hp'.
  { unfold p', exec. rewrite onmessage_offer by reflexivity. unfold try_catch.
    rewrite (handleOffer_accepted p pp ch sdp ans) by assumption. reflexivity. }
  assert (h' = set_connections
                 (alter (with_remoteDescription (Some ans)) ph (connections h)) h) as Hh'.
  { unfold h', exec. rewrite onmessage_answer by reflexivity.
    unfold try_catch, handleAnswer, bind, read. rewrite Hph.
    unfold setRemoteDescription. simpl. rewrite Hrh. reflexivity. }
  split; [exact Hp'|]. split; [exact Hh'|].
  intros cp chost Hcp Hchost. rewrite Hp', Hh'. simpl.
  rewrite !list_lookup_alter_eq, Hcp, Hchost. reflexivity.
Qed.

Lemma offer_answer_exchange_witness :
  exec (onmessage HOST (signal answer 61 PEER) accepting) host_awaiting_answer =
  set_connections
    (alter (with_remoteDescription (Some 61)) 0 (connections host_awaiting_answer))
    host_awaiting_answer.
Proof.
  assert (peerConnection peer_before_render = Some 0) as Hpp by (vm_compute; reflexivity).
  assert (bc peer_before_render = Some {| channelId := 0; onmessage_role := IDLE |}) as Hbc
    by (vm_compute; reflexivity).
  assert (0 ∉ closedChannels peer_before_render) as Hopen
    by (vm_compute; apply not_elem_of_nil).
  assert (peerConnection host_awaiting_answer = Some 0) as Hph by (vm_compute; reflexivity).
  exact (proj1 (proj2 (offer_answer_exchange peer_before_render host_awaiting_answer 0 0
                         {| channelId := 0; onmessage_role := IDLE |} 50 61
                         accepting accepting Hpp Hbc Hopen eq_refl eq_refl eq_refl
                         Hph eq_refl))).
Defined.

(** ** Invariants kept by every primitive *)

Section Maintains.
Context (I : State -> Prop).

Lemma maintains_ret {A} (a : A) : maintains I (ret a).
Proof. intros s H. exact H. Qed.

Lemma maintains_throw {A} : maintains I (@throw A).
Proof. intros s H. exact H. Qed.

Lemma maintains_read {A} (g : State -> A) : maintains I (read g).
Proof. intros s H. exact H. Qed.

Lemma maintains_write (g : State -> State) :
  (forall s, I s -> I (g s)) -> maintains I (write g).
Proof. intros Hg s H. apply Hg, H. Qed.

Lemma maintains_bind {A C} (m : Js A) (k : A -> Js C) :
  maintains I m -> (forall a, maintains I (k a)) -> maintains I (bind m k).
Proof.
  intros Hm Hk s H. unfold bind. specialize (Hm s H).
  destruct (m s) as [[a|] s']; simpl in *; [apply Hk, Hm | exact Hm].
Qed.

Lemma maintains_try_catch {A} (body handler : Js A) :
  maintains I body -> maintains I handler -> maintains I (try_catch body handler).
Proof.
  intros Hb Hh s H. unfold try_catch. specialize (Hb s H).
  destruct (body s) as [[a|] s']; simpl in *; [exact Hb | apply Hh, Hb].
Qed.

Lemma maintains_forEach {A} (xs : list A) (g : A -> Js unit) :
  (forall x, maintains I (g x)) -> maintains I (forEach xs g).
Proof.
  intros Hg. induction xs as [|x xs IH]; simpl.
  - apply maintains_ret.
  - apply maintains_bind; [apply Hg | intros _; apply IH].
Qed.
End Maintains.

Create HintDb keep.

(** Walks through a handler and closes the goal [maintains I m] when every
    write of [m] keeps [I]; writes that do not touch what [I] reads are
    closed by conversion, the others by the hints of [keep]. *)
Ltac keep :=
  repeat first
    [ progress intros
    | contradiction
    | solve [auto 2 with keep]
    | apply maintains_ret
    | apply maintains_throw
    | apply maintains_read
    | apply maintains_write; let s := fresh in let H := fresh in intros s H; exact H
    | apply maintains_bind
    | apply maintains_try_catch
    | apply maintains_forEach
    | match goal with
      | |- maintains _ (match ?x with _ => _ end) => destruct x
      end
    | match goal with
      | |- maintains _ ?m => let h := head_of m in unfold h
      end ].

(** ** A PEER made through the page *)

Lemma postMessage_keeps_no_answer m :
  type m <> answer -> maintains no_answer_posted (postMessage m).
Proof.
  intros Hm s H. unfold postMessage, bind, read. simpl.
  destruct (bc s) as [ch|]; [|exact H].
  destruct (decide (channelId ch ∈ closedChannels s)); [exact H|].
  unfold no_answer_posted. simpl.
  apply Forall_app. split; [exact H|]. apply Forall_singleton. exact Hm.
Qed.

Lemma post_offer_keeps_no_answer sdp sender :
  maintains no_answer_posted
    (postMessage {| type := offer; payload := sdp; senderId := sender |}).
Proof. apply postMessage_keeps_no_answer. discriminate. Qed.

#[local] Hint Resolve post_offer_keeps_no_answer : keep.

Lemma commit_keeps_no_answer r : maintains no_answer_posted (commit r).
Proof. keep. Qed.

(** Only the handler of the channel can post an answer. *)
Lemma handler_keeps_no_answer s e :
  (forall msg reply, e <> BusMessage msg reply) ->
  maintains no_answer_posted (handler s e).
Proof.
  intros Hne. destruct e; try (keep; fail).
  exfalso. eapply Hne. reflexivity.
Qed.

(** The channel handler of a render that is not a PEER posts nothing. *)
Lemma onmessage_posts_nothing role_ msg reply :
  role_ <> PEER -> preserves posted (onmessage role_ msg reply).
Proof.
  intros Hne. unfold onmessage.
  destruct (decide (role_ = IDLE)); [frame|].
  destruct (decide (type msg = offer /\ role_ = PEER)) as [[_ H]|_]; [contradiction|].
  frame.
Qed.

Lemma commit_role r : preserves role (commit r).
Proof. frame. Qed.

Lemma commit_pendingUserMedia r : preserves pendingUserMedia (commit r).
Proof. frame. Qed.

Lemma commit_forgets_connection r s :
  role s <> r -> peerConnection (exec (commit r) s) = None.
Proof. intros Hne. rewrite commit_changed_spec by assumption. reflexivity. Qed.

(** The re-render keeps the invariant of a PEER: a change of role forgets
    the connection. *)
Lemma commit_peer r s :
  (role s = PEER -> pendingUserMedia s = [] /\ (role s = r -> peerConnection s = None)) ->
  role (exec (commit r) s) = PEER ->
  peerConnection (exec (commit r) s) = None /\ pendingUserMedia (exec (commit r) s) = [].
Proof.
  intros H Hrole.
  rewrite (preserves_exec role) in Hrole by apply commit_role.
  rewrite (preserves_exec pendingUserMedia) by apply commit_pendingUserMedia.
  destruct (H Hrole) as [Hpend Hpc]. split; [|exact Hpend].
  destruct (decide (role s = r)) as [Heq|Hne].
  - unfold exec. rewrite commit_same by assumption. apply Hpc, Heq.
  - apply commit_forgets_connection, Hne.
Qed.

Lemma handler_peer_view s e :
  match e with
  | IceCandidateEvent _ _ | TrackEvent _ | ConnectionStateChangeEvent _ _
  | ClickAnalyze _ _ | TimerElapsed _ _ | AnalysisSettled _ _ => True
  | _ => False
  end ->
  preserves peer_view (handler s e).
Proof. destruct e; intros H; try contradiction; frame. Qed.

Lemma handler_peer s e :
  subscribed s ->
  (role s = PEER -> peerConnection s = None /\ pendingUserMedia s = []) ->
  offered s e = true -> patient s e = true ->
  role (exec (handler s e) s) = PEER ->
  pendingUserMedia (exec (handler s e) s) = [] /\
  (role (exec (handler s e) s) = role s -> peerConnection (exec (handler s e) s) = None).
Proof.
  intros Hsub Hpeer Hoff Hpat.
  assert (forall s1, peer_view s1 = peer_view s ->
            role s1 = PEER ->
            pendingUserMedia s1 = [] /\ (role s1 = role s -> peerConnection s1 = None)) as Hview.
  { intros s1 Hv Hr. unfold peer_view in Hv. injection Hv as Hv1 Hv2 Hv3.
    rewrite Hv1 in Hr. destruct (Hpeer Hr) as [Hpc Hpend].
    rewrite Hv2, Hv3. split; [exact Hpend | intros _; exact Hpc]. }
  destruct e;
    try (apply Hview; apply (preserves_exec peer_view), handler_peer_view; exact Logic.I).
  - (* Start Streaming *)
    intros Hr. discriminate Hr.
  - (* Join Session *)
    apply bool_decide_eq_true in Hoff. apply bool_decide_eq_true in Hpat.
    intros _. split; [exact Hpat|]. intros Hr. simpl in Hr. congruence.
  - (* End Session *)
    unfold handler, exec. rewrite endSession_spec. intros Hr. discriminate Hr.
  - (* getUserMedia settled *)
    unfold handler. destruct (pendingUserMedia s !! k) as [captured|] eqn:Hk.
    + assert (role s <> PEER) as Hne.
      { intros Hr. destruct (Hpeer Hr) as [_ Hpend]. rewrite Hpend in Hk. discriminate Hk. }
      intros Hr. exfalso. apply Hne. rewrite <- Hr. symmetry.
      apply (preserves_exec role). frame.
    + intros Hr. apply Hpeer in Hr. destruct Hr as [Hpc Hpend].
      split; [exact Hpend | intros _; exact Hpc].
  - (* a message of the channel *)
    assert (closed_view (exec (handler s (BusMessage msg reply)) s) = closed_view s) as Hv.
    { unfold handler. destruct (bc s) as [ch|]; [|reflexivity].
      destruct (decide (channelId ch ∈ closedChannels s)); [reflexivity|].
      apply (preserves_exec closed_view), onmessage_closed. }
    set (s1 := exec (handler s (BusMessage msg reply)) s) in *. clearbody s1.
    intros Hr. unfold closed_view in Hv. injection Hv as _ Hv2 Hv3 Hv4.
    rewrite Hv3 in Hr. destruct (Hpeer Hr) as [Hpc Hpend].
    rewrite Hv4, Hv2. split; [exact Hpend | intros _; exact Hpc].
Qed.

Lemma handler_bus_no_answer s msg reply :
  subscribed s ->
  (role s = PEER -> peerConnection s = None /\ pendingUserMedia s = []) ->
  posted (exec (handler s (BusMessage msg reply)) s) = posted s.
Proof.
  intros (ch & Hbc & Hch) Hpeer. unfold handler. rewrite Hbc.
  destruct (decide (channelId ch ∈ closedChannels s)); [reflexivity|].
  destruct (decide (role s = PEER)) as [Hr|Hne].
  - unfold exec. rewrite onmessage_no_connection by apply Hpeer, Hr. reflexivity.
  - apply (preserves_exec posted), onmessage_posts_nothing. congruence.
Qed.

Lemma step_peer_inv s e :
  peer_inv s -> offered s e = true -> patient s e = true -> peer_inv (step s e).
Proof.
  intros (Hsub & Hpeer & Hpost) Hoff Hpat.
  split; [apply step_subscribed, Hsub|]. unfold step. split.
  - apply commit_peer. apply handler_peer; assumption.
  - apply commit_keeps_no_answer.
    destruct e; try (apply handler_keeps_no_answer; [discriminate | exact Hpost]).
    unfold no_answer_posted. rewrite handler_bus_no_answer by assumption. exact Hpost.
Qed.

Lemma run_admissible_invariant (P : State -> Prop) :
  (forall s e, P s -> offered s e = true -> patient s e = true -> P (step s e)) ->
  forall es s, P s -> admissible s es = true -> P (run s es).
Proof.
  intros Hstep es. induction es as [|e es IH]; intros s Hs Hadm; [exact Hs|].
  simpl in Hadm. apply andb_prop in Hadm as [Hadm Hrest].
  apply andb_prop in Hadm as [Hoff Hpat].
  change (run s (e :: es)) with (run (step s e) es).
  apply IH; [apply Hstep; assumption | exact Hrest].
Qed.

Lemma init_peer_inv : peer_inv init.
Proof.
  split; [|split].
  - eexists. split; reflexivity.
  - intros H. discriminate H.
  - constructor.
Qed.

(** X15. The page never answers an offer.  [handleOffer] needs the current
    connection, and the only connection a PEER could have is the one
    [joinPeer] makes, which the re-render closes and forgets.  So when every
    click is on a button the page offers and no session button is clicked
    while the camera prompt is open, a component in the role PEER has no
    current connection, and no message of type answer is ever posted,
    whatever messages arrive and whatever the transport replies. *)
Theorem peer_never_answers (es : list Event) :
  admissible init es = true ->
  (role (run init es) = PEER -> peerConnection (run init es) = None) /\
  (forall ch m, (ch, m) ∈ posted (run init es) -> type m <> answer).
Proof.
  intros Hadm.
  destruct (run_admissible_invariant peer_inv step_peer_inv es init init_peer_inv Hadm)
    as (_ & Hpeer & Hpost).
  split.
  - intros Hr. apply Hpeer, Hr.
  - intros ch m Hin. exact (proj1 (Forall_forall _ _) Hpost (ch, m) Hin).
Qed.

Lemma peer_never_answers_witness :
  peerConnection (run init [ClickJoinSession; BusMessage (signal offer 50 HOST) accepting])
  = None.
Proof.
  assert (admissible init [ClickJoinSession; BusMessage (signal offer 50 HOST) accepting]
          = true) as Hadm by (vm_compute; reflexivity).
  assert (role (run init [ClickJoinSession; BusMessage (signal offer 50 HOST) accepting])
          = PEER) as Hrole by (vm_compute; reflexivity).
  exact (proj1 (peer_never_answers _ Hadm) Hrole).
Defined.

(** ** Who goes live *)

Lemma commit_changed_not_live r s : role s <> r -> isLive (exec (commit r) s) = false.
Proof. intros Hne. rewrite commit_changed_spec by assumption. reflexivity. Qed.

(** A connection that is not closed belongs to a host. *)
Lemma alive_connection_host s pc c :
  session_inv s ->
  (role s = PEER -> peerConnection s = None /\ pendingUserMedia s = []) ->
  connections s !! pc = Some c -> isClosed c = false -> role s = HOST.
Proof.
  intros (Hone & Hidle & _ & _) Hpeer Hc Hopen.
  assert (peerConnection s = Some pc) as Hcur.
  { apply Hone. rewrite list_lookup_fmap, Hc. simpl. rewrite Hopen. reflexivity. }
  destruct (decide (role s = IDLE)) as [Hi|Hi].
  { rewrite Hidle in Hcur by assumption. discriminate Hcur. }
  destruct (decide (role s = PEER)) as [Hp|Hp].
  { destruct (Hpeer Hp) as [Hnone _]. rewrite Hnone in Hcur. discriminate Hcur. }
  destruct (role s); congruence.
Qed.

(** A camera request that is out belongs to a host. *)
Lemma pending_camera_host s k captured :
  session_inv s ->
  (role s = PEER -> peerConnection s = None /\ pendingUserMedia s = []) ->
  pendingUserMedia s !! k = Some captured -> role s = HOST.
Proof.
  intros (_ & _ & Hpend & _) Hpeer Hk.
  assert (pendingUserMedia s <> []) as Hne by (intros H; rewrite H in Hk; discriminate Hk).
  destruct (decide (role s = PEER)) as [Hp|Hp].
  { destruct (Hpeer Hp) as [_ H]. contradiction. }
  destruct (Hpend Hne) as [Hi _].
  destruct (role s); congruence.
Qed.

Lemma handler_not_live s e :
  session_inv s ->
  (role s = PEER -> peerConnection s = None /\ pendingUserMedia s = []) ->
  role s <> HOST -> isLive s = false ->
  offered s e = true ->
  role (exec (handler s e) s) = role s ->
  isLive (exec (handler s e) s) = false.
Proof.
  intros Hinv Hpeer Hne Hlive Hoff.
  destruct e; intros Hrole;
    try (rewrite (preserves_exec isLive) by frame; exact Hlive).
  - (* End Session *)
    unfold handler, exec. rewrite endSession_spec. reflexivity.
  - (* getUserMedia settled *)
    unfold handler. destruct (pendingUserMedia s !! k) as [captured|] eqn:Hk; [|exact Hlive].
    exfalso. apply Hne. exact (pending_camera_host s k captured Hinv Hpeer Hk).
  - (* ontrack *)
    unfold handler, on_connection, exec, bind, read. simpl.
    destruct (connections s !! pc) as [c|] eqn:Hc; [|exact Hlive].
    destruct (isClosed c) eqn:Hopen; [exact Hlive|].
    exfalso. apply Hne. exact (alive_connection_host s pc c Hinv Hpeer Hc Hopen).
  - (* onconnectionstatechange *)
    unfold handler, on_connection, exec, bind, read. simpl.
    destruct (connections s !! pc) as [c|] eqn:Hc; [|exact Hlive].
    destruct (isClosed c) eqn:Hopen; [exact Hlive|].
    exfalso. apply Hne. exact (alive_connection_host s pc c Hinv Hpeer Hc Hopen).
Qed.

Lemma step_live_inv s e :
  live_inv s -> offered s e = true -> patient s e = true -> live_inv (step s e).
Proof.
  intros (Hinv & Hpeer & Hlive) Hoff Hpat.
  split; [|split].
  - unfold step. apply commit_session_inv, handler_session_inv; assumption.
  - apply step_peer_inv; assumption.
  - unfold step. set (s1 := exec (handler s e) s).
    destruct (decide (role s1 = role s)) as [Heq|Hne].
    + unfold exec. rewrite commit_same by assumption. simpl. intros Hl.
      destruct (decide (role s = HOST)) as [Hh|Hnh]; [congruence|].
      assert (isLive s = false) as Hoff'.
      { destruct (isLive s); [|reflexivity]. exfalso. apply Hnh, Hlive. reflexivity. }
      pose proof (handler_not_live s e Hinv (proj1 (proj2 Hpeer)) Hnh Hoff' Hoff Heq) as H.
      fold s1 in H. congruence.
    + rewrite commit_changed_not_live by assumption. discriminate.
Qed.

Lemma init_live_inv : live_inv init.
Proof.
  split; [apply init_session_inv|]. split; [apply init_peer_inv|]. discriminate.
Qed.

(** X16. Only a host goes live.  [isLive] is set by [startHost], by
    [ontrack] and by [onconnectionstatechange]; the re-render after a change
    of role clears it and closes the connection, and a closed connection
    fires no callback.  So when every click is on a button the page offers
    and no session button is clicked while the camera prompt is open, a
    component that is live is a HOST, and the page enables AI Scan for a
    host only: never while idle, and never for a PEER. *)
Theorem only_host_goes_live (es : list Event) :
  admissible init es = true ->
  (isLive (run init es) = true -> role (run init es) = HOST) /\
  (forall ctx frame,
     offered (run init es) (ClickAnalyze ctx frame) = true -> role (run init es) = HOST).
Proof.
  intros Hadm.
  destruct (run_admissible_invariant live_inv step_live_inv es init init_live_inv Hadm)
    as (_ & _ & Hlive).
  split; [exact Hlive|]. intros ctx frame Hoff. apply Hlive.
  simpl in Hoff. apply negb_true_iff, orb_false_elim in Hoff as [_ H].
  apply negb_false_iff in H. exact H.
Qed.

Lemma only_host_goes_live_witness :
  admissible init start_streaming = true /\
  isLive (run init start_streaming) = true /\
  role (run init start_streaming) = HOST.
Proof.
  assert (admissible init start_streaming = true) as Hadm by (vm_compute; reflexivity).
  assert (isLive (run init start_streaming) = true) as Hlive by (vm_compute; reflexivity).
  split; [exact Hadm|]. split; [exact Hlive|].
  exact (proj1 (only_host_goes_live start_streaming Hadm) Hlive).
Defined.

(** ** The request of [analyzeVideoFrames] *)

Lemma String_split_without sep s : includes sep s = false -> String_split sep s = [s].
Proof.
  induction s as [|c s IH]; intros H; [reflexivity|].
  simpl in *. apply orb_false_elim in H as [Hc Hs].
  rewrite Hc, (IH Hs). reflexivity.
Qed.

Lemma String_split_at sep p rest :
  includes sep p = false ->
  String_split sep (String.append p (String sep rest)) = p :: String_split sep rest.
Proof.
  induction p as [|c p IH]; intros H.
  - simpl. rewrite Ascii.eqb_refl. reflexivity.
  - simpl in *. apply orb_false_elim in H as [Hc Hp].
    rewrite Hc, (IH Hp). reflexivity.
Qed.

Lemma comma_is_comma : String comma EmptyString = ",".
Proof. reflexivity. Qed.

Lemma inline_part_data_url frame :
  no_comma frame -> inline_part (data_url frame) = InlineData "image/jpeg" (Some frame.2).
Proof.
  intros [Hp Hb]. unfold inline_part, data_url.
  rewrite String_split_at by assumption. rewrite String_split_without by assumption.
  reflexivity.
Qed.

(** X17. What is sent to the model.  For frames that are data URLs, a media
    type, a comma and a body with no further comma, as [canvas.toDataURL]
    gives them, the parts of the request are the bodies alone, as JPEG
    images in the order of the frames, followed by the prompt as the one
    text part. *)
Theorem request_carries_bodies (prompt : string) (frames : list (string * string)) :
  Forall no_comma frames ->
  request_parts prompt (data_url <$> frames) =
  ((fun frame => InlineData "image/jpeg" (Some frame.2)) <$> frames) ++ [Text prompt].
Proof.
  intros H. unfold request_parts. f_equal.
  induction H as [|frame frames Hf _ IH]; [reflexivity|].
  simpl. rewrite inline_part_data_url by assumption. f_equal. exact IH.
Qed.

Lemma request_carries_bodies_witness :
  request_parts "Analyze" (data_url <$> [("data:image/jpeg;base64", "/9j/4AAQ"); ("data:image/jpeg;base64", "/9j/2wBD")]) =
  [InlineData "image/jpeg" (Some "/9j/4AAQ"); InlineData "image/jpeg" (Some "/9j/2wBD");
   Text "Analyze"].
Proof.
  apply (request_carries_bodies "Analyze"
           [("data:image/jpeg;base64", "/9j/4AAQ"); ("data:image/jpeg;base64", "/9j/2wBD")]).
  repeat constructor.
Defined.

(** X18. The prefix is not optional.  [data.split(',')[1]] is the piece
    after the first comma, so a frame that has no prefix, plain base64
    without a comma, is not sent as it is: its part has no data at all. *)
Theorem frame_without_prefix_has_no_data (data : string) :
  includes comma data = false -> inline_part data = InlineData "image/jpeg" None.
Proof.
  intros H. unfold inline_part. rewrite String_split_without by assumption. reflexivity.
Qed.

Lemma frame_without_prefix_has_no_data_witness :
  inline_part "/9j/4AAQ" = InlineData "image/jpeg" None.
Proof. apply (frame_without_prefix_has_no_data "/9j/4AAQ"). reflexivity. Defined.

(** ** Candidates of the local transport *)

Lemma postMessage_keeps_no_candidate m :
  type m <> candidate -> maintains no_candidate_posted (postMessage m).
Proof.
  intros Hm s H. unfold postMessage, bind, read. simpl.
  destruct (bc s) as [ch|]; [|exact H].
  destruct (decide (channelId ch ∈ closedChannels s)); [exact H|].
  unfold no_candidate_posted. simpl.
  apply Forall_app. split; [exact H|]. apply Forall_singleton. exact Hm.
Qed.

Lemma post_offer_keeps_no_candidate sdp sender :
  maintains no_candidate_posted
    (postMessage {| type := offer; payload := sdp; senderId := sender |}).
Proof. apply postMessage_keeps_no_candidate. discriminate. Qed.

Lemma post_answer_keeps_no_candidate sdp sender :
  maintains no_candidate_posted
    (postMessage {| type := answer; payload := sdp; senderId := sender |}).
Proof. apply postMessage_keeps_no_candidate. discriminate. Qed.

#[local] Hint Resolve post_offer_keeps_no_candidate post_answer_keeps_no_candidate : keep.

Lemma commit_keeps_no_candidate r : maintains no_candidate_posted (commit r).
Proof. keep. Qed.

Lemma handler_keeps_no_candidate s e : maintains no_candidate_posted (handler s e).
Proof. destruct e; keep. Qed.

Lemma reachable_no_candidate es : no_candidate_posted (run init es).
Proof.
  apply run_invariant.
  - constructor.
  - intros s e H. unfold step.
    apply commit_keeps_no_candidate, handler_keeps_no_candidate, H.
Qed.

(** [onicecandidate] writes nothing. *)
Lemma icecandidate_step s pc cand : step s (IceCandidateEvent pc cand) = s.
Proof.
  apply step_idle. unfold handler, on_connection, exec, bind, read. simpl.
  destruct (connections s !! pc) as [c|]; [|reflexivity].
  destruct (isClosed c); [reflexivity|].
  destruct cand; [|reflexivity].
  unfold onicecandidate, postMessage_RTCIceCandidate, bind, read. simpl.
  destruct (bc s); reflexivity.
Qed.

(** X14. The component publishes no candidate.  [onicecandidate] hands the
    [RTCIceCandidate] object of the event to [postMessage], which cannot
    clone it.  So in every state the component reaches, a candidate of the
    local transport leaves the state as it is, the handler of a candidate of
    an open connection ends by an exception, and no message of type
    candidate is among the messages posted. *)
Theorem candidate_never_published (es : list Event) (pc : nat) (cand : option Payload) :
  step (run init es) (IceCandidateEvent pc cand) = run init es /\
  (forall conn, connections (run init es) !! pc = Some conn -> isClosed conn = false ->
     cand <> None ->
     fst (handler (run init es) (IceCandidateEvent pc cand) (run init es)) = Thrown) /\
  (forall ch m, (ch, m) ∈ posted (run init es) -> type m <> candidate).
Proof.
  split; [apply icecandidate_step|]. split.
  - intros conn Hconn Hopen Hcand.
    destruct (reachable_subscribed es) as (ch & Hbc & _).
    unfold handler. rewrite (on_connection_open _ pc conn) by assumption.
    destruct cand as [c|]; [|contradiction].
    unfold onicecandidate, postMessage_RTCIceCandidate, bind, read. simpl.
    rewrite Hbc. reflexivity.
  - intros ch m Hin.
    exact (proj1 (Forall_forall _ _) (reachable_no_candidate es) (ch, m) Hin).
Qed.

(** ** Messages that come back to their sender *)

(** C7, as stated, fails for an offer.  The camera is granted after End
    Session and Join Session, so [startHost] posts its offer from a
    component that is a PEER with a connection.  When that offer is
    delivered back, the handler takes it as the offer of a host: it is
    applied to the component's own connection as remote description and
    answered. *)
Lemma own_offer_answered :
  let s := run init stale_grant_as_peer in
  let echo := signal offer 50 HOST in
  all_offered init stale_grant_as_peer = true /\
  role s = PEER /\
  posted s = [(3, echo)] /\
  (remoteDescription <$> connections s !! 1) = Some None /\
  (remoteDescription <$> connections (step s (BusMessage echo accepting)) !! 1)
    = Some (Some 50) /\
  (localDescription <$> connections (step s (BusMessage echo accepting)) !! 1)
    = Some (Some 61) /\
  posted (step s (BusMessage echo accepting)) = [(3, echo); (3, signal answer 61 PEER)] /\
  step s (BusMessage echo accepting) <> s.
Proof.
  repeat split; try (vm_compute; reflexivity).
  intros H. apply (f_equal posted) in H. vm_compute in H. discriminate.
Qed.

(** C7, amended.  The handler never reads [senderId]; a message of the
    component's own that comes back is ignored where the role guard or the
    missing connection drops it.  The component posts offers and answers
    only, never a candidate.  In every state it reaches, an offer of its own
    is ignored unless its role is PEER, and an answer of its own unless its
    role is HOST.  And when every click is on a button the page offers and
    no session button is clicked while the camera prompt is open, every
    message of its own, delivered back with any reply of the transport,
    leaves the state as it is. *)
Theorem own_echo_ignored (es : list Event) (ch : nat) (m : SignalingMessage)
    (reply : TransportReply) :
  (ch, m) ∈ posted (run init es) ->
  let s := run init es in
  type m <> candidate /\
  (type m = offer -> role s <> PEER -> step s (BusMessage m reply) = s) /\
  (type m = answer -> role s <> HOST -> step s (BusMessage m reply) = s) /\
  (admissible init es = true -> step s (BusMessage m reply) = s) /\
  (forall role_ sender,
     onmessage role_ {| type := type m; payload := payload m; senderId := sender |} reply =
     onmessage role_ m reply).
Proof.
  intros Hin s.
  assert (type m <> candidate) as Hnc
    by exact (proj1 (Forall_forall _ _) (reachable_no_candidate es) (ch, m) Hin).
  destruct (reachable_subscribed es) as (ch0 & Hbc & Hch0). fold s in Hbc, Hch0.
  split; [exact Hnc|]. split; [|split; [|split]].
  - intros Ht Hr. apply deliver_guard. intros ch' Hch'.
    assert (ch' = ch0) as -> by congruence. left. split; [exact Ht | congruence].
  - intros Ht Hr. apply deliver_guard. intros ch' Hch'.
    assert (ch' = ch0) as -> by congruence. right. left. split; [exact Ht | congruence].
  - intros Hadm.
    destruct (run_admissible_invariant peer_inv step_peer_inv es init init_peer_inv Hadm)
      as (_ & Hpeer & Hpost).
    fold s in Hpeer, Hpost.
    assert (type m <> answer) as Hna
      by exact (proj1 (Forall_forall _ _) Hpost (ch, m) Hin).
    destruct (decide (role s = PEER)) as [Hr|Hr].
    + apply deliver_no_connection. apply Hpeer, Hr.
    + apply deliver_guard. intros ch' Hch'.
      assert (ch' = ch0) as -> by congruence. left.
      split; [destruct (type m); congruence | congruence].
  - intros role_ sender. reflexivity.
Qed.

Lemma own_echo_ignored_witness :
  admissible init start_streaming = true /\
  step (run init start_streaming) (BusMessage (signal offer 50 HOST) accepting)
  = run init start_streaming.
Proof.
  assert (admissible init start_streaming = true) as Hadm by (vm_compute; reflexivity).
  assert (posted (run init start_streaming) = [(1, signal offer 50 HOST)]) as Hposted
    by (vm_compute; reflexivity).
  assert ((1, signal offer 50 HOST) ∈ posted (run init start_streaming)) as Hin
    by (rewrite Hposted; apply elem_of_cons; left; reflexivity).
  split; [exact Hadm|].
  exact (proj1 (proj2 (proj2 (proj2 (own_echo_ignored start_streaming 1 (signal offer 50 HOST)
                                       accepting Hin)))) Hadm).
Defined.

(** ** The end of a session, through the page *)












